(** * Order execution, portfolio settlement and the simulated bot

    A shallow embedding of the trading backend
    ([backend/models.py], [backend/routers/trading.py],
    [backend/routers/bots.py]) and the properties of its order path.

    Modelling conventions.
    - Tables are lists of rows in storage order; a query's [.first()] is the
      first matching row of that list, [.all()] is every matching row.
    - [Float] columns and [float] request fields are binary64 numbers, the
      kernel's primitive floats: [+], [-], [*] and [==] round and compare as
      Python's do, with signed zeros, infinities and NaN.
    - An ORM object is a reference to a row: its position in the table of the
      session's pending state.  Two references to the same row alias.
    - A session holds the stored database, the pending (uncommitted) one,
      the log of commits and whether a flush has failed; after a failed flush
      a commit raises until the session is rolled back.  An exception that
      leaves a handler drops the pending state.
    - [datetime.now()] and the server-side [func.now()] are one clock reading
      [now] passed to the handler. *)

From Stdlib Require Import List String Ascii Bool Arith PeanoNat Lia ZArith Floats.
From Stdlib Require Import Sorted Permutation.
Import ListNotations.

#[local] Set Warnings "-inexact-float".

Local Open Scope string_scope.
Local Open Scope nat_scope.
Local Open Scope list_scope.

(** ** models.py *)

Module Bot.
Record t := mk {
  id : nat;
  name : string;
  status : string;       (* running, stopped, error *)
  strategy : string;
  config : string;       (* JSON configuration *)
  owner_id : nat
}.

Definition set_status (s : string) (b : t) : t :=
  mk (id b) (name b) s (strategy b) (config b) (owner_id b).

Definition set_fields (n st c : string) (b : t) : t :=
  mk (id b) n (status b) st c (owner_id b).
End Bot.

Module Trade.
Record t := mk {
  id : nat;
  symbol : string;             (* e.g., BTC/USD *)
  side : string;               (* buy or sell *)
  order_type : string;         (* market, limit, etc. *)
  amount : float;
  price : option float;
  status : string;             (* open, filled, canceled *)
  created_at : nat;
  executed_at : option nat;
  user_id : nat;
  bot_id : option nat          (* nullable for manual trades *)
}.

Definition fill (now : nat) (x : t) : t :=
  mk (id x) (symbol x) (side x) (order_type x) (amount x) (price x)
     "filled" (created_at x) (Some now) (user_id x) (bot_id x).
End Trade.

Module Portfolio.
Record t := mk {
  id : nat;
  asset : string;              (* e.g., BTC, ETH *)
  balance : float;
  user_id : nat
}.

Definition set_balance (q : float) (p : t) : t :=
  mk (id p) (asset p) q (user_id p).
End Portfolio.

Module Market.
Record t := mk {
  id : nat;
  symbol : string;             (* e.g., BTC/USD *)
  base_asset : string;
  quote_asset : string;
  price : float;
  volume_24h : float;
  change_24h : float
}.
End Market.

Record Database := mkDatabase {
  bots : list Bot.t;
  trades : list Trade.t;
  portfolios : list Portfolio.t;
  markets : list Market.t
}.

Definition with_bots (f : list Bot.t -> list Bot.t) (d : Database) : Database :=
  mkDatabase (f (bots d)) (trades d) (portfolios d) (markets d).

Definition with_trades (f : list Trade.t -> list Trade.t) (d : Database) : Database :=
  mkDatabase (bots d) (f (trades d)) (portfolios d) (markets d).

Definition with_portfolios (f : list Portfolio.t -> list Portfolio.t) (d : Database)
  : Database :=
  mkDatabase (bots d) (trades d) (f (portfolios d)) (markets d).

(** ** Rows, references and primary keys *)

(** Position of the first row that satisfies [p]: the object [.first()]
    returns. *)
Fixpoint first_index {A : Type} (p : A -> bool) (l : list A) : option nat :=
  match l with
  | [] => None
  | x :: l' => if p x then Some 0 else option_map S (first_index p l')
  end.

(** Attribute assignment through a reference. *)
Fixpoint update_at {A : Type} (n : nat) (f : A -> A) (l : list A) : list A :=
  match l, n with
  | [], _ => []
  | x :: l', 0 => f x :: l'
  | x :: l', S n' => x :: update_at n' f l'
  end.

(** Autoincremented integer primary key: one more than the largest key in
    the table. *)
Definition next_id (ids : list nat) : nat := S (fold_right Nat.max 0 ids).

(** [s.split(sep)] for a one-character separator. *)
Fixpoint split (sep : ascii) (s : string) : list string :=
  match s with
  | EmptyString => [EmptyString]
  | String c rest =>
      if Ascii.eqb c sep then EmptyString :: split sep rest
      else match split sep rest with
           | [] => [String c EmptyString]
           | part :: parts => String c part :: parts
           end
  end.

Definition slash : ascii := "/"%char.

(** [x in [...]] on strings. *)
Definition str_in (x : string) (l : list string) : bool :=
  existsb (String.eqb x) l.

(** Truth value of an [Optional[float]]: [None] and zero (of either sign)
    are false, NaN is true. *)
Definition truthy (p : option float) : bool :=
  match p with
  | None => false
  | Some q => negb (q =? 0)%float
  end.

(** ** Sessions and handlers *)

Inductive Exn :=
| HTTPException (status_code : nat) (detail : string)
| PyError (name : string).

Record Session := mkSession {
  stored : Database;          (* what the database holds *)
  pending : Database;         (* the session's view, with uncommitted changes *)
  commits : list Database;    (* every state committed so far, oldest first *)
  inactive : bool             (* a flush failed and was not rolled back *)
}.

Definition Handler (A : Type) : Type := Session -> Session * (Exn + A).

Definition ret {A : Type} (a : A) : Handler A := fun s => (s, inr a).

Definition bind {A B : Type} (m : Handler A) (k : A -> Handler B) : Handler B :=
  fun s => match m s with
           | (s', inr a) => k a s'
           | (s', inl e) => (s', inl e)
           end.

Definition raise {A : Type} (e : Exn) : Handler A := fun s => (s, inl e).

Definition query {A : Type} (q : Database -> A) : Handler A :=
  fun s => (s, inr (q (pending s))).

Definition mutate (f : Database -> Database) : Handler unit :=
  fun s => (mkSession (stored s) (f (pending s)) (commits s) (inactive s), inr tt).

(** [db.commit()]; on a session whose flush failed it raises and stores
    nothing.  Queries are not guarded: the code sends none on such a
    session. *)
Definition commit : Handler unit :=
  fun s =>
    if inactive s then (s, inl (PyError "PendingRollbackError"))
    else (mkSession (pending s) (pending s) (commits s ++ [pending s]) false, inr tt).

(** A [db.commit()] whose flush the driver rejects with [e]: the transaction
    is rolled back, the pending rows are gone and the session is left
    inactive. *)
Definition flush_error {A : Type} (e : Exn) : Handler A :=
  fun s => (mkSession (stored s) (stored s) (commits s) true, inl e).

(** [try: m except Exception: h] *)
Definition try_except {A : Type} (m : Handler A) (h : Exn -> Handler A) : Handler A :=
  fun s => match m s with
           | (s', inl e) => h e s'
           | r => r
           end.

Declare Scope handler_scope.
Delimit Scope handler_scope with handler.
Notation "x <- m ;; k" := (bind m (fun x => k))
  (at level 61, m at next level, right associativity) : handler_scope.
Notation "m ;; k" := (bind m (fun _ => k))
  (at level 61, right associativity) : handler_scope.
Local Open Scope handler_scope.

(** What a request leaves behind: the stored database once the session is
    closed, the states it committed on the way, and its answer. *)
Record Served (A : Type) := mkServed {
  final : Database;
  history : list Database;
  response : Exn + A
}.
Arguments mkServed {A}.
Arguments final {A}.
Arguments history {A}.
Arguments response {A}.

Definition serve {A : Type} (h : Handler A) (db : Database) : Served A :=
  let '(s, r) := h (mkSession db db [] false) in
  mkServed (stored s) (commits s) r.

(** [db.add(row)] of a new object: the row goes to the end of its table with
    the next primary key; the reference to it is returned. *)
Definition add_trade (mk : nat -> Trade.t) : Handler nat :=
  ref <- query (fun d => List.length (trades d)) ;;
  mutate (with_trades (fun l => l ++ [mk (next_id (map Trade.id l))])) ;;
  ret ref.

Definition add_portfolio (mk : nat -> Portfolio.t) : Handler nat :=
  ref <- query (fun d => List.length (portfolios d)) ;;
  mutate (with_portfolios (fun l => l ++ [mk (next_id (map Portfolio.id l))])) ;;
  ret ref.

(** ** routers/trading.py *)

Record TradeCreate := mkTradeCreate {
  symbol : string;
  side : string;            (* buy or sell *)
  order_type : string;      (* market or limit *)
  amount : float;
  price : option float      (* optional for market orders *)
}.

Definition market_by_symbol (sym : string) (d : Database) : option Market.t :=
  find (fun m => (Market.symbol m =? sym)%string) (markets d).

Definition owns (user : nat) (a : string) (p : Portfolio.t) : bool :=
  (Portfolio.user_id p =? user) && (Portfolio.asset p =? a)%string.

Definition portfolio_ref (user : nat) (a : string) (d : Database) : option nat :=
  first_index (owns user a) (portfolios d).

(** [ref.balance = f(ref.balance)] *)
Definition set_balance_at (ref : nat) (f : float -> float) : Handler unit :=
  mutate (with_portfolios
            (update_at ref (fun p => Portfolio.set_balance (f (Portfolio.balance p)) p))).

(** Lines 99-128 of [create_order]: the portfolio update of a filled market
    order. *)
Definition settle (trade : TradeCreate) (price : option float) (current_user : nat)
  : Handler unit :=
  match split slash (symbol trade) with
  | [base_asset; quote_asset] =>
      base_portfolio <- query (portfolio_ref current_user base_asset) ;;
      quote_portfolio <- query (portfolio_ref current_user quote_asset) ;;
      base_portfolio <-
        match base_portfolio with
        | Some r => ret r
        | None => add_portfolio (fun i => Portfolio.mk i base_asset 0%float current_user)
        end ;;
      quote_portfolio <-
        match quote_portfolio with
        | Some r => ret r
        | None => add_portfolio (fun i => Portfolio.mk i quote_asset 0%float current_user)
        end ;;
      if (side trade =? "buy")%string then
        set_balance_at base_portfolio (fun b => b + amount trade)%float ;;
        match price with
        | Some p => set_balance_at quote_portfolio (fun b => b - amount trade * p)%float
        | None => raise (PyError "TypeError")
        end
      else
        set_balance_at base_portfolio (fun b => b - amount trade)%float ;;
        match price with
        | Some p => set_balance_at quote_portfolio (fun b => b + amount trade * p)%float
        | None => raise (PyError "TypeError")
        end
  | _ => raise (PyError "ValueError")
  end.

Definition create_order (trade : TradeCreate) (current_user : nat) (now : nat)
  : Handler Trade.t :=
  if negb (str_in (side trade) ["buy"; "sell"]) then
    raise (HTTPException 400 "Side must be 'buy' or 'sell'")
  else if negb (str_in (order_type trade) ["market"; "limit"]) then
    raise (HTTPException 400 "Order type must be 'market' or 'limit'")
  else if (order_type trade =? "limit")%string && negb (truthy (price trade)) then
    raise (HTTPException 400 "Price is required for limit orders")
  else
    market <- query (market_by_symbol (symbol trade)) ;;
    match market with
    | None => raise (HTTPException 400 ("Market " ++ symbol trade ++ " not found")%string)
    | Some market =>
        let price := if (order_type trade =? "limit")%string then price trade
                     else Some (Market.price market) in
        new_trade <- add_trade (fun i =>
          Trade.mk i (symbol trade) (side trade) (order_type trade) (amount trade)
                   price "open" now None current_user None) ;;
        commit ;;
        (if (order_type trade =? "market")%string then
           mutate (with_trades (update_at new_trade (Trade.fill now))) ;;
           settle trade price current_user ;;
           commit
         else ret tt) ;;
        row <- query (fun d => nth_error (trades d) new_trade) ;;
        match row with
        | Some t => ret t
        | None => raise (PyError "ObjectDeletedError")
        end
    end.

(** One entry of the portfolio listing. *)
Record Holding := mkHolding {
  h_asset : string;
  h_balance : float;
  value_usd : option float
}.

(** The [for item in portfolio] loop of [get_portfolio], [result] being the
    list built so far. *)
Fixpoint get_portfolio_loop (d : Database) (portfolio : list Portfolio.t)
  (result : list Holding) : list Holding :=
  match portfolio with
  | [] => result
  | item :: rest =>
      if (Portfolio.balance item =? 0)%float then get_portfolio_loop d rest result
      else
        let data := mkHolding (Portfolio.asset item) (Portfolio.balance item) None in
        let data :=
          match market_by_symbol (Portfolio.asset item ++ "/USD")%string d with
          | Some market =>
              mkHolding (h_asset data) (h_balance data)
                        (Some (Portfolio.balance item * Market.price market)%float)
          | None => data
          end in
        get_portfolio_loop d rest (result ++ [data])
  end.

Definition get_portfolio (current_user : nat) : Handler (list Holding) :=
  portfolio <- query (fun d =>
    filter (fun p => (Portfolio.user_id p =? current_user)%nat) (portfolios d)) ;;
  d <- query (fun d => d) ;;
  ret (get_portfolio_loop d portfolio []).

(** ** routers/bots.py *)

(** What [json.loads] returns; a number is an [int] or a [float], an object
    is a [dict], given by its items. *)
#[local] Set Warnings "-register-all".
Inductive json :=
| JNull
| JBool (b : bool)
| JInt (n : Z)
| JFloat (x : float)
| JStr (s : string)
| JArr (items : list json)
| JObj (fields : list (string * json)).

Record BotBase := mkBotBase {
  name : string;
  strategy : string;
  config : string           (* JSON string *)
}.

Record BotActionResponse := mkBotActionResponse {
  success : bool;
  message : string;
  status : string
}.

(** A unit of work handed to [background_tasks.add_task]. *)
Inductive Task := RunBotTask (bot_id : nat).

Definition lift {A : Type} (r : Exn + A) : Handler A :=
  match r with
  | inl e => raise e
  | inr a => ret a
  end.

Definition bot_ref (p : Bot.t -> bool) (d : Database) : option nat :=
  first_index p (bots d).

(** Attribute access through a reference to a bot. *)
Definition bot_at (ref : nat) : Handler Bot.t :=
  row <- query (fun d => nth_error (bots d) ref) ;;
  match row with
  | Some b => ret b
  | None => raise (PyError "ObjectDeletedError")
  end.

Definition add_bot (mk : nat -> Bot.t) : Handler nat :=
  ref <- query (fun d => List.length (bots d)) ;;
  mutate (with_bots (fun l => l ++ [mk (next_id (map Bot.id l))])) ;;
  ret ref.

(** [config.get(key, default)]: only a JSON object has [get]. *)
Definition config_get (config : json) (key : string) (default : json) : Exn + json :=
  match config with
  | JObj fields =>
      match find (fun kv => (fst kv =? key)%string) fields with
      | Some kv => inr (snd kv)
      | None => inr default
      end
  | _ => inl (PyError "AttributeError")
  end.

(** [float(n)] on an [int]: the nearest binary64 number, ties to even;
    [None] is [OverflowError]. *)
Definition float_of_int (n : Z) : option float :=
  match binary_normalize prec emax n 0 false with
  | S754_infinity _ => None
  | x => Some (SF2Prim x)
  end.

(** [except json.JSONDecodeError] *)
Definition is_json_decode_error (e : Exn) : bool :=
  match e with
  | PyError name => (name =? "JSONDecodeError")%string
  | HTTPException _ _ => false
  end.

Section Bots.

(** Library functions the bot code calls; they are not code of the
    repository and are left open. *)

(** [json.loads]: the value, or the exception it raises, [JSONDecodeError]
    on text that is not JSON and others besides ([RecursionError] on text
    nested too deep). *)
Variable json_loads : string -> Exn + json.
(** [float(s)] on a string; [None] is [ValueError]. *)
Variable float_of_string : string -> option float.
(** What the database driver makes of a value that is not a string where a
    [String] column or parameter is expected. *)
Variable bind_text : json -> Exn + string.

(** [float(v)] *)
Definition py_float (v : json) : Exn + float :=
  match v with
  | JFloat x => inr x
  | JInt n =>
      match float_of_int n with
      | Some x => inr x
      | None => inl (PyError "OverflowError")
      end
  | JBool b => inr (if b then 1%float else 0%float)
  | JStr s =>
      match float_of_string s with
      | Some q => inr q
      | None => inl (PyError "ValueError")
      end
  | _ => inl (PyError "TypeError")
  end.

Definition as_text (v : json) : Exn + string :=
  match v with
  | JStr s => inr s
  | _ => bind_text v
  end.

(** Background task to simulate bot behavior.  The symbol is bound as a
    parameter of the market query; the side is bound when the commit flushes
    the new trade, and a side the driver rejects fails that flush. *)
Definition run_bot_task (bot_id : nat) (now : nat) : Handler unit :=
  bot <- query (bot_ref (fun b => Bot.id b =? bot_id)) ;;
  match bot with
  | None => ret tt
  | Some bot =>
      mutate (with_bots (update_at bot (Bot.set_status "running"))) ;;
      commit ;;
      try_except
        (b <- bot_at bot ;;
         config <- lift (json_loads (Bot.config b)) ;;
         symbol <- lift (config_get config "symbol" (JStr "BTC/USD")) ;;
         side <- lift (config_get config "side" (JStr "buy")) ;;
         amount <- lift (config_get config "amount" (JFloat 0.01)) ;;
         amount <- lift (py_float amount) ;;
         symbol <- lift (as_text symbol) ;;
         market <- query (market_by_symbol symbol) ;;
         match market with
         | Some market =>
             match as_text side with
             | inr side =>
                 add_trade (fun i =>
                   Trade.mk i symbol side "market" amount (Some (Market.price market))
                            "filled" now (Some now) (Bot.owner_id b) (Some (Bot.id b))) ;;
                 commit
             | inl e => flush_error e
             end
         | None => ret tt
         end)
        (fun e =>
           mutate (with_bots (update_at bot (Bot.set_status "error"))) ;;
           commit)
  end.

Definition create_bot (bot : BotBase) (current_user : nat) : Handler Bot.t :=
  match json_loads (config bot) with
  | inl e =>
      if is_json_decode_error e then
        raise (HTTPException 400 "Invalid JSON in config field")
      else raise e
  | inr _ =>
      new_bot <- add_bot (fun i =>
        Bot.mk i (name bot) "stopped" (strategy bot) (config bot) current_user) ;;
      commit ;;
      bot_at new_bot
  end.

Definition update_bot (bot_id : nat) (bot_data : BotBase) (current_user : nat)
  : Handler Bot.t :=
  bot <- query (bot_ref (fun b =>
           (Bot.id b =? bot_id) && (Bot.owner_id b =? current_user))) ;;
  match bot with
  | None => raise (HTTPException 404 "Bot not found")
  | Some bot =>
      match json_loads (config bot_data) with
      | inl e =>
          if is_json_decode_error e then
            raise (HTTPException 400 "Invalid JSON in config field")
          else raise e
      | inr _ =>
          mutate (with_bots (update_at bot
            (Bot.set_fields (name bot_data) (strategy bot_data) (config bot_data)))) ;;
          commit ;;
          bot_at bot
      end
  end.

Definition start_bot (bot_id : nat) (current_user : nat)
  : Handler (BotActionResponse * list Task) :=
  bot <- query (bot_ref (fun b =>
           (Bot.id b =? bot_id) && (Bot.owner_id b =? current_user))) ;;
  match bot with
  | None => raise (HTTPException 404 "Bot not found")
  | Some bot =>
      b <- bot_at bot ;;
      if (Bot.status b =? "running")%string then
        ret (mkBotActionResponse false "Bot is already running" (Bot.status b), [])
      else
        ret (mkBotActionResponse true "Bot started successfully" "starting",
             [RunBotTask bot_id])
  end.

Definition stop_bot (bot_id : nat) (current_user : nat)
  : Handler BotActionResponse :=
  bot <- query (bot_ref (fun b =>
           (Bot.id b =? bot_id) && (Bot.owner_id b =? current_user))) ;;
  match bot with
  | None => raise (HTTPException 404 "Bot not found")
  | Some bot =>
      b <- bot_at bot ;;
      if (Bot.status b =? "stopped")%string then
        ret (mkBotActionResponse false "Bot is already stopped" (Bot.status b))
      else
        mutate (with_bots (update_at bot (Bot.set_status "stopped"))) ;;
        commit ;;
        ret (mkBotActionResponse true "Bot stopped successfully" "stopped")
  end.

(** ** The service as a transition system *)

Record World := mkWorld {
  database : Database;
  background : list Task      (* scheduled, not yet run *)
}.

Inductive Request :=
| CreateOrder (trade : TradeCreate) (current_user : nat) (now : nat)
| GetPortfolio (current_user : nat)
| CreateBot (bot : BotBase) (current_user : nat)
| UpdateBot (bot_id : nat) (bot_data : BotBase) (current_user : nat)
| StartBot (bot_id : nat) (current_user : nat)
| StopBot (bot_id : nat) (current_user : nat)
| Background (n : nat) (now : nat).   (* the n-th scheduled task runs *)

Fixpoint remove_nth {A : Type} (n : nat) (l : list A) : list A :=
  match l, n with
  | [], _ => []
  | _ :: l', 0 => l'
  | x :: l', S n' => x :: remove_nth n' l'
  end.

Definition scheduled (r : Exn + (BotActionResponse * list Task)) : list Task :=
  match r with
  | inr (_, tasks) => tasks
  | inl _ => []
  end.

(** One request (or one background task) served on the stored database:
    the world afterwards and the states committed meanwhile. *)
Definition step (w : World) (r : Request) : World * list Database :=
  match r with
  | CreateOrder trade u now =>
      let s := serve (create_order trade u now) (database w) in
      (mkWorld (final s) (background w), history s)
  | GetPortfolio u =>
      let s := serve (get_portfolio u) (database w) in
      (mkWorld (final s) (background w), history s)
  | CreateBot bot u =>
      let s := serve (create_bot bot u) (database w) in
      (mkWorld (final s) (background w), history s)
  | UpdateBot bot_id bot_data u =>
      let s := serve (update_bot bot_id bot_data u) (database w) in
      (mkWorld (final s) (background w), history s)
  | StartBot bot_id u =>
      let s := serve (start_bot bot_id u) (database w) in
      (mkWorld (final s) (background w ++ scheduled (response s)), history s)
  | StopBot bot_id u =>
      let s := serve (stop_bot bot_id u) (database w) in
      (mkWorld (final s) (background w), history s)
  | Background n now =>
      match nth_error (background w) n with
      | Some (RunBotTask bot_id) =>
          let s := serve (run_bot_task bot_id now) (database w) in
          (mkWorld (final s) (remove_nth n (background w)), history s)
      | None => (w, [])
      end
  end.

(** A sequence of requests: the world at the end and every state the
    database went through. *)
Fixpoint run (w : World) (rs : list Request) : World * list Database :=
  match rs with
  | [] => (w, [])
  | r :: rs' =>
      let '(w1, h1) := step w r in
      let '(w2, h2) := run w1 rs' in
      (w2, h1 ++ h2)
  end.

End Bots.

(** ** Vocabulary of the properties *)

(** [t in s]: [t] occurs in [s]. *)
Fixpoint contains (s t : string) : bool :=
  String.prefix t s ||
  match s with
  | EmptyString => false
  | String _ s' => contains s' t
  end.

(** The row a row of [open] status would be for this request. *)
Definition open_trade (d : Database) (trade : TradeCreate) (p : option float)
  (current_user now : nat) : Trade.t :=
  Trade.mk (next_id (map Trade.id (trades d))) (symbol trade) (side trade)
           (order_type trade) (amount trade) p "open" now None current_user None.

(** Sample rows and requests. *)
Definition btc_usd : Market.t := Market.mk 1 "BTC/USD" "BTC" "USD" 100 0 0.
Definition btcusd : Market.t := Market.mk 2 "BTCUSD" "BTC" "USD" 100 0 0.
Definition sample_db : Database := mkDatabase [] [] [] [btc_usd; btcusd].

(** The portfolio listing as the specification words it: one entry per row
    of the user whose balance is not 0, valued in USD when a market
    [<asset>/USD] exists. *)
Definition usd_value (d : Database) (p : Portfolio.t) : option float :=
  match market_by_symbol (Portfolio.asset p ++ "/USD")%string d with
  | Some market => Some (Portfolio.balance p * Market.price market)%float
  | None => None
  end.

Definition listed (current_user : nat) (p : Portfolio.t) : bool :=
  (Portfolio.user_id p =? current_user) && negb (Portfolio.balance p =? 0)%float.

Definition portfolio_listing (d : Database) (current_user : nat) : list Holding :=
  map (fun p => mkHolding (Portfolio.asset p) (Portfolio.balance p) (usd_value d p))
      (filter (listed current_user) (portfolios d)).

(** The user's entry for an asset (the row a lookup returns), its balance
    (zero when there is none) and the total the user holds of the asset over
    all rows. *)
Definition entry (d : Database) (user : nat) (a : string) : option Portfolio.t :=
  find (owns user a) (portfolios d).

Definition balance_in (rows : list Portfolio.t) (user : nat) (a : string) : float :=
  match find (owns user a) rows with
  | Some p => Portfolio.balance p
  | None => 0%float
  end.

Definition balance_of (d : Database) (user : nat) (a : string) : float :=
  balance_in (portfolios d) user a.



Definition rows_of (d : Database) (user : nat) : list Portfolio.t :=
  filter (fun p => Portfolio.user_id p =? user) (portfolios d).

(** The portfolio table after a settlement, written without the session:
    both lookups, then the missing rows, then the two assignments. *)
Definition bump (f : float -> float) (p : Portfolio.t) : Portfolio.t :=
  Portfolio.set_balance (f (Portfolio.balance p)) p.

Definition ensured (user : nat) (a : string) (found : option nat)
  (rows : list Portfolio.t) : nat * list Portfolio.t :=
  match found with
  | Some r => (r, rows)
  | None =>
      (List.length rows,
       rows ++ [Portfolio.mk (next_id (map Portfolio.id rows)) a 0%float user])
  end.

Definition settled (user : nat) (base quote : string) (fb fq : float -> float)
  (rows : list Portfolio.t) : list Portfolio.t :=
  let found_b := first_index (owns user base) rows in
  let found_q := first_index (owns user quote) rows in
  let '(rb, rows1) := ensured user base found_b rows in
  let '(rq, rows2) := ensured user quote found_q rows1 in
  update_at rq (bump fq) (update_at rb (bump fb) rows2).

Definition base_leg (trade : TradeCreate) : float -> float :=
  if (side trade =? "buy")%string then (fun b => b + amount trade)%float
  else (fun b => b - amount trade)%float.

Definition quote_leg (trade : TradeCreate) (p : float) : float -> float :=
  if (side trade =? "buy")%string then (fun b => b - amount trade * p)%float
  else (fun b => b + amount trade * p)%float.

(** A submission that passes the checks of [create_order]: side, type and
    limit price, and a symbol that names a market. *)
Definition checked_order (d : Database) (trade : TradeCreate) : bool :=
  str_in (side trade) ["buy"; "sell"] &&
  str_in (order_type trade) ["market"; "limit"] &&
  negb ((order_type trade =? "limit")%string && negb (truthy (price trade))) &&
  match market_by_symbol (symbol trade) d with
  | Some _ => true
  | None => false
  end.

(** A symbol that is a pair [base/quote]. *)
Definition is_pair (sym : string) : bool :=
  match split slash sym with
  | [_; _] => true
  | _ => false
  end.

(** A submission [create_order] accepts: the side, type and price checks
    pass, the symbol names a market and, for a market order, it is a pair
    [base/quote]. *)
Definition valid_order (d : Database) (trade : TradeCreate) : bool :=
  str_in (side trade) ["buy"; "sell"] &&
  str_in (order_type trade) ["market"; "limit"] &&
  negb ((order_type trade =? "limit")%string && negb (truthy (price trade))) &&
  match market_by_symbol (symbol trade) d with
  | Some _ => true
  | None => false
  end &&
  (negb (order_type trade =? "market")%string ||
   match split slash (symbol trade) with
   | [_; _] => true
   | _ => false
   end).

Definition open_or_filled (t : Trade.t) : Prop :=
  Trade.status t = "open" \/ Trade.status t = "filled".

(** [d'] holds the trades of [d], as they were and where they were, followed
    by rows of status open or filled. *)
Definition grows (d d' : Database) : Prop :=
  exists more, trades d' = trades d ++ more /\ Forall open_or_filled more.

(** The row the bot task inserts. *)
Definition bot_trade (d : Database) (b : Bot.t) (sym sd : string) (amt : float)
  (m : Market.t) (now : nat) : Trade.t :=
  Trade.mk (next_id (map Trade.id (trades d))) sym sd "market" amt
           (Some (Market.price m)) "filled" now (Some now)
           (Bot.owner_id b) (Some (Bot.id b)).

(** Sample library functions: a parser that knows the empty object and
    gives up on lists nested four deep, and no conversions. *)
Definition sample_loads (s : string) : Exn + json :=
  if (s =? "{}")%string then inr (JObj [])
  else if String.prefix "[[[[" s then inl (PyError "RecursionError")
  else inl (PyError "JSONDecodeError").
Definition sample_float (s : string) : option float := None.
Definition sample_bind (v : json) : Exn + string := inl (PyError "InterfaceError").

Definition sample_bot : Bot.t := Bot.mk 1 "dca" "stopped" "simple" "{}" 7.
Definition sample_bot_db : Database := mkDatabase [sample_bot] [] [] [btc_usd].

(** A session all of whose states grow [d0], and a handler that keeps
    sessions so. *)
Definition session_grows (d0 : Database) (s : Session) : Prop :=
  grows d0 (stored s) /\ grows d0 (pending s) /\ Forall (grows d0) (commits s).

Definition steady {A : Type} (h : Handler A) : Prop :=
  forall d0 s, session_grows d0 s -> session_grows d0 (fst (h s)).

(** The four ways a submission can end: refused by a check, stored as a
    resting limit order, stored and then broken on the symbol, or filled and
    settled. *)
Inductive Outcome (db : Database) (trade : TradeCreate) (current_user now : nat)
  : Served Trade.t -> Prop :=
| Refused (detail : string) :
    Outcome db trade current_user now
      (mkServed db [] (inl (HTTPException 400 detail)))
| Resting (m : Market.t) :
    side trade = "buy" \/ side trade = "sell" ->
    order_type trade = "limit" ->
    truthy (price trade) = true ->
    market_by_symbol (symbol trade) db = Some m ->
    let row := open_trade db trade (price trade) current_user now in
    let db1 := with_trades (fun l => l ++ [row]) db in
    Outcome db trade current_user now (mkServed db1 [db1] (inr row))
| Broken (m : Market.t) :
    order_type trade = "market" ->
    market_by_symbol (symbol trade) db = Some m ->
    (forall base quote, split slash (symbol trade) <> [base; quote]) ->
    let row := open_trade db trade (Some (Market.price m)) current_user now in
    let db1 := with_trades (fun l => l ++ [row]) db in
    Outcome db trade current_user now
      (mkServed db1 [db1] (inl (PyError "ValueError")))
| Filled (m : Market.t) (base quote : string) :
    side trade = "buy" \/ side trade = "sell" ->
    order_type trade = "market" ->
    market_by_symbol (symbol trade) db = Some m ->
    split slash (symbol trade) = [base; quote] ->
    let p := Market.price m in
    let row := open_trade db trade (Some p) current_user now in
    let db1 := with_trades (fun l => l ++ [row]) db in
    let db2 :=
      with_portfolios
        (settled current_user base quote (base_leg trade) (quote_leg trade p))
        (with_trades (fun l => l ++ [Trade.fill now row]) db) in
    Outcome db trade current_user now
      (mkServed db2 [db1; db2] (inr (Trade.fill now row))).

(** ** routers/trading.py and routers/bots.py, the read endpoints *)

(** [order_by(key.desc())]: rows by decreasing key; rows of equal key stay
    in table order (SQL leaves their order open). *)
Fixpoint insert_desc {A : Type} (key : A -> nat) (x : A) (l : list A) : list A :=
  match l with
  | [] => [x]
  | y :: l' => if key y <=? key x then x :: l else y :: insert_desc key x l'
  end.

Definition order_by_desc {A : Type} (key : A -> nat) (l : list A) : list A :=
  fold_right (insert_desc key) [] l.

(** Truth value of an [Optional[str]]: [None] and the empty string are
    false. *)
Definition truthy_str (s : option string) : bool :=
  match s with
  | None => false
  | Some x => negb (x =? "")%string
  end.

(** [query.filter(column == value)] when [value] is given and not empty. *)
Definition filter_by (value : option string) (column : Trade.t -> string)
  (q : list Trade.t) : list Trade.t :=
  match value with
  | Some x => if truthy_str value then filter (fun t => (column t =? x)%string) q
              else q
  | None => q
  end.

(** [skip] and [limit] are taken non-negative; what a negative offset or
    limit does is the database's business. *)
Definition get_orders (status symbol : option string) (skip limit : nat)
  (current_user : nat) : Handler (list Trade.t) :=
  query (fun d =>
    let q := filter (fun t => Trade.user_id t =? current_user) (trades d) in
    let q := filter_by status Trade.status q in
    let q := filter_by symbol Trade.symbol q in
    firstn limit (skipn skip (order_by_desc Trade.created_at q))).

Definition get_order (trade_id : nat) (current_user : nat) : Handler Trade.t :=
  trade <- query (fun d =>
    find (fun t => (Trade.id t =? trade_id) && (Trade.user_id t =? current_user))
         (trades d)) ;;
  match trade with
  | None => raise (HTTPException 404 "Trade not found")
  | Some t => ret t
  end.

Definition get_markets : Handler (list Market.t) := query markets.

Definition get_market (symbol : string) : Handler Market.t :=
  market <- query (market_by_symbol symbol) ;;
  match market with
  | None => raise (HTTPException 404 ("Market " ++ symbol ++ " not found")%string)
  | Some m => ret m
  end.

Definition get_bots (current_user : nat) : Handler (list Bot.t) :=
  query (fun d => filter (fun b => Bot.owner_id b =? current_user) (bots d)).

Definition get_bot (bot_id : nat) (current_user : nat) : Handler Bot.t :=
  bot <- query (fun d =>
    find (fun b => (Bot.id b =? bot_id) && (Bot.owner_id b =? current_user))
         (bots d)) ;;
  match bot with
  | None => raise (HTTPException 404 "Bot not found")
  | Some b => ret b
  end.

(** One entry of a bot's trade history; [executed_at] stands for its ISO
    text. *)
Record BotTradeEntry := mkBotTradeEntry {
  e_id : nat;
  e_symbol : string;
  e_side : string;
  e_amount : float;
  e_price : option float;
  e_executed_at : option nat;
  e_status : string
}.

Definition made_by (bot_id : nat) (t : Trade.t) : bool :=
  match Trade.bot_id t with
  | Some b => b =? bot_id
  | None => false
  end.

Definition get_bot_trades (bot_id : nat) (limit : nat) (current_user : nat)
  : Handler (list BotTradeEntry) :=
  bot <- query (fun d =>
    find (fun b => (Bot.id b =? bot_id) && (Bot.owner_id b =? current_user))
         (bots d)) ;;
  match bot with
  | None => raise (HTTPException 404 "Bot not found")
  | Some _ =>
      trades <- query (fun d =>
        firstn limit (order_by_desc Trade.created_at
                        (filter (made_by bot_id) (trades d)))) ;;
      ret (map (fun trade =>
                  mkBotTradeEntry (Trade.id trade) (Trade.symbol trade)
                    (Trade.side trade) (Trade.amount trade) (Trade.price trade)
                    (Trade.executed_at trade) (Trade.status trade))
               trades)
  end.

(** ** main.py: the API key middleware *)

Inductive Passage :=
| CallNext
| Unauthorized (detail : string).   (* 401 *)

(** [path.startswith((p1, p2, ...))] *)
Definition startswith (path : string) (prefixes : list string) : bool :=
  existsb (fun p => String.prefix p path) prefixes.

(** [api_key != API_KEY] for an optional header value. *)
Definition differs (api_key : option string) (key : string) : bool :=
  match api_key with
  | None => true
  | Some x => negb (x =? key)%string
  end.

(** [API_KEY] is the configured key, [api_key] the [X-API-Key] header. *)
Definition verify_api_key (API_KEY : string) (path : string)
  (api_key : option string) : Passage :=
  if startswith path ["/docs"; "/redoc"; "/openapi.json"] then CallNext
  else if negb (truthy_str api_key) && negb (API_KEY =? "dev_api_key")%string then
    if differs api_key API_KEY then Unauthorized "Invalid API key"
    else CallNext
  else CallNext.

(** ** routers/users.py, security.py and the login endpoint of main.py

    The users table is on its own: these handlers take it and give it back
    with their answer. *)

Module User.
Record t := mk {
  id : nat;
  username : string;
  email : string;
  hashed_password : string;
  is_active : bool
}.
End User.

Record UserCreate := mkUserCreate {
  username : string;
  email : string;
  password : string
}.

Definition read_users (skip limit : nat) (users : list User.t) : list User.t :=
  firstn limit (skipn skip users).

Definition read_user (user_id : nat) (users : list User.t) : Exn + User.t :=
  match find (fun u => User.id u =? user_id) users with
  | None => inl (HTTPException 404 "User not found")
  | Some u => inr u
  end.

Section Users.

(** The password and token libraries, left open.  A bcrypt hash depends on a
    fresh salt, which is an argument here. *)
Variable get_password_hash : string -> string -> string.   (* salt, password *)
Variable verify_password : string -> string -> bool.       (* plain, hashed *)
(** [jwt.encode] of the payload [{sub, exp}] *)
Variable jwt_encode : string -> nat -> string.
(** [jwt.decode]: [None] is [JWTError], else the payload's [sub] if any. *)
Variable jwt_decode : string -> option (option string).

Definition create_user (user : UserCreate) (salt : string) (users : list User.t)
  : list User.t * (Exn + User.t) :=
  match find (fun u => (User.username u =? username user)%string) users with
  | Some _ => (users, inl (HTTPException 400 "Username already registered"))
  | None =>
      match find (fun u => (User.email u =? email user)%string) users with
      | Some _ => (users, inl (HTTPException 400 "Email already registered"))
      | None =>
          let new_user :=
            User.mk (next_id (map User.id users)) (username user) (email user)
                    (get_password_hash salt (password user)) true in
          (users ++ [new_user], inr new_user)
      end
  end.

(** [expire] is the expiry time put into the token. *)
Definition login_for_access_token (name pass : string) (expire : nat)
  (users : list User.t) : Exn + string :=
  match find (fun u => (User.username u =? name)%string) users with
  | None => inl (HTTPException 401 "Incorrect username or password")
  | Some user =>
      if negb (verify_password pass (User.hashed_password user)) then
        inl (HTTPException 401 "Incorrect username or password")
      else inr (jwt_encode (User.username user) expire)
  end.

Definition get_current_user (token : string) (users : list User.t) : Exn + User.t :=
  match jwt_decode token with
  | None => inl (HTTPException 401 "Could not validate credentials")
  | Some None => inl (HTTPException 401 "Could not validate credentials")
  | Some (Some name) =>
      match find (fun u => (User.username u =? name)%string) users with
      | None => inl (HTTPException 401 "Could not validate credentials")
      | Some user => inr user
      end
  end.

End Users.

(** ** Vocabulary of the further properties *)

(** A relation from a starting database to later ones that holds of every
    state of a session, and a handler that keeps it so. *)
Definition session_keeps (R : Database -> Database -> Prop) (d0 : Database)
  (s : Session) : Prop :=
  R d0 (stored s) /\ R d0 (pending s) /\ Forall (R d0) (commits s).

Definition keeps (R : Database -> Database -> Prop) {A : Type} (h : Handler A)
  : Prop :=
  forall d0 s, session_keeps R d0 s -> session_keeps R d0 (fst (h s)).

Definition same_markets (d d' : Database) : Prop := markets d' = markets d.
Definition same_bots (d d' : Database) : Prop := bots d' = bots d.
Definition same_portfolios (d d' : Database) : Prop := portfolios d' = portfolios d.

Definition is_order (r : Request) : bool :=
  match r with
  | CreateOrder _ _ _ => true
  | _ => false
  end.

Definition is_trading (r : Request) : bool :=
  match r with
  | CreateOrder _ _ _ | GetPortfolio _ => true
  | _ => false
  end.

(** Rows by decreasing key. *)
Definition newest_first {A : Type} (key : A -> nat) : list A -> Prop :=
  StronglySorted (fun a b => key b <= key a).

(** A column value passes a filter: no filter, the empty text, or the very
    text. *)
Definition passes (value : option string) (x : string) : bool :=
  match value with
  | Some v => (v =? "")%string || (v =? x)%string
  | None => true
  end.

(** The trades the order listing is about. *)
Definition wanted (status symbol : option string) (user : nat) (t : Trade.t) : bool :=
  (Trade.user_id t =? user) && passes status (Trade.status t) &&
  passes symbol (Trade.symbol t).

(** The same order on the other side. *)
Definition opposite (trade : TradeCreate) : TradeCreate :=
  mkTradeCreate (symbol trade)
    (if (side trade =? "buy")%string then "sell" else "buy")
    (order_type trade) (amount trade) (price trade).

(** The bot of this id that the user owns. *)
Definition owned_bot (bot_id user : nat) (b : Bot.t) : bool :=
  (Bot.id b =? bot_id) && (Bot.owner_id b =? user).

Definition not_found : Exn := HTTPException 404 "Bot not found".

(** The entry of a trade in a bot's history. *)
Definition trade_entry (trade : Trade.t) : BotTradeEntry :=
  mkBotTradeEntry (Trade.id trade) (Trade.symbol trade) (Trade.side trade)
    (Trade.amount trade) (Trade.price trade) (Trade.executed_at trade)
    (Trade.status trade).

(** Every bot's configuration is text [json.loads] accepts. *)
Definition configs_parse (json_loads : string -> Exn + json) (d : Database) : Prop :=
  Forall (fun b => exists v, json_loads (Bot.config b) = inr v) (bots d).

(** Parsing configurations at [d0] gives parsing configurations at [d]. *)
Definition configs_kept (json_loads : string -> Exn + json) (d0 d : Database)
  : Prop :=
  configs_parse json_loads d0 -> configs_parse json_loads d.

(** Sample password and token libraries: the hash is the password, the token
    is the user name. *)
Definition sample_hash (salt pass : string) : string := pass.
Definition sample_verify (pass hashed : string) : bool := (pass =? hashed)%string.
Definition sample_encode (sub : string) (expire : nat) : string := sub.
Definition sample_decode (token : string) : option (option string) :=
  Some (Some token).

(** A row a settlement of [user] on [base] and [quote] creates. *)
Definition created_for (user : nat) (base quote : string) (r : Portfolio.t) : Prop :=
  Portfolio.balance r = 0%float /\ Portfolio.user_id r = user /\
  (Portfolio.asset r = base \/ Portfolio.asset r = quote).

(** * Properties *)

(** ** Binary64 arithmetic *)

Lemma not_nan_spec (x : float) : is_nan x = false -> Prim2SF x <> S754_nan.
Proof.
  unfold is_nan. rewrite FloatAxioms.eqb_spec. intros H E. rewrite E in H.
  discriminate.
Qed.

Lemma finite_spec (x : float) :
  is_finite x = true ->
  (exists s, Prim2SF x = S754_zero s) \/
  (exists s m e, Prim2SF x = S754_finite s m e).
Proof.
  unfold is_finite, is_nan, is_infinity.
  rewrite !FloatAxioms.eqb_spec, abs_spec.
  destruct (Prim2SF x) as [s | s | | s m e]; eauto.
  - destruct s; vm_compute; discriminate.
  - vm_compute. discriminate.
Qed.

Lemma SFeqb_refl (x : spec_float) : x <> S754_nan -> SFeqb x x = true.
Proof.
  destruct x as [s | s | | s m e]; intros H; try reflexivity.
  - now destruct s.
  - now elim H.
  - unfold SFeqb, SFcompare. rewrite Z.compare_refl.
    assert (Hm : PosDef.Pos.compare_cont Eq m m = Eq) by apply Pos.compare_refl.
    rewrite Hm. now destruct s.
Qed.

(** [0 + x == x] and [0 - x == -x] unless [x] is NaN. *)
Lemma zero_add (x : float) : is_nan x = false -> (0 + x =? x)%float = true.
Proof.
  intros H. apply not_nan_spec in H.
  rewrite FloatAxioms.eqb_spec, add_spec.
  change (Prim2SF 0) with (S754_zero false).
  destruct (Prim2SF x) as [s | s | | s m e] eqn:E; try (now elim H).
  - now destruct s.
  - apply SFeqb_refl. discriminate.
  - apply SFeqb_refl. discriminate.
Qed.

Lemma zero_sub (x : float) : is_nan x = false -> (0 - x =? - x)%float = true.
Proof.
  intros H. apply not_nan_spec in H.
  rewrite FloatAxioms.eqb_spec, sub_spec, opp_spec.
  change (Prim2SF 0) with (S754_zero false).
  destruct (Prim2SF x) as [s | s | | s m e] eqn:E; try (now elim H).
  - now destruct s.
  - apply SFeqb_refl. discriminate.
  - apply SFeqb_refl. discriminate.
Qed.

Lemma cond_Zopp_cancel (s : bool) (z : Z) :
  (cond_Zopp (negb s) z + cond_Zopp s z = 0)%Z.
Proof. destruct s; simpl; lia. Qed.

(** Adding a finite [x] to zero and taking it away again leaves [0.0], and
    so does taking it away first. *)
Lemma add_then_sub (x : float) : is_finite x = true -> (0 + x - x = 0)%float.
Proof.
  intros H. apply Prim2SF_inj. rewrite sub_spec, add_spec.
  change (Prim2SF 0) with (S754_zero false).
  destruct (finite_spec x H) as [[s ->] | (s & m & e & ->)].
  - now destruct s.
  - unfold SF64add, SF64sub. simpl SFadd. unfold SFsub.
    rewrite Z.min_id.
    replace (cond_Zopp s _ - cond_Zopp s _)%Z with 0%Z by lia.
    reflexivity.
Qed.

Lemma sub_then_add (x : float) : is_finite x = true -> (0 - x + x = 0)%float.
Proof.
  intros H. apply Prim2SF_inj. rewrite add_spec, sub_spec.
  change (Prim2SF 0) with (S754_zero false).
  destruct (finite_spec x H) as [[s ->] | (s & m & e & ->)].
  - now destruct s.
  - unfold SF64add, SF64sub. simpl SFsub. unfold SFadd.
    rewrite Z.min_id, cond_Zopp_cancel. reflexivity.
Qed.

(** ** Order intake *)

Lemma str_in_side (s : string) :
  s = "buy" \/ s = "sell" -> str_in s ["buy"; "sell"] = true.
Proof. intros [-> | ->]; reflexivity. Qed.

Lemma str_in_order_type (s : string) :
  s = "market" \/ s = "limit" -> str_in s ["market"; "limit"] = true.
Proof. intros [-> | ->]; reflexivity. Qed.

Lemma contains_prefix (t s : string) : contains (t ++ s) t = true.
Proof.
  assert (H : String.prefix t (t ++ s) = true).
  { induction t as [| c t IH]; simpl.
    - now destruct s.
    - destruct (ascii_dec c c) as [_ | n]; [exact IH | now elim n]. }
  destruct t; simpl in *; [now destruct s | now rewrite H].
Qed.

Lemma contains_app (a s t : string) :
  contains s t = true -> contains (a ++ s) t = true.
Proof.
  intros H. induction a as [| c a IH]; simpl; [exact H |].
  rewrite IH. apply orb_true_r.
Qed.

(** C4. A limit order without a price is answered 400; nothing is committed
    and the stored database is the one before the request. *)
Theorem limit_without_price_rejected (db : Database) (trade : TradeCreate)
  (current_user now : nat) :
  order_type trade = "limit" ->
  price trade = None ->
  exists detail,
    serve (create_order trade current_user now) db
    = mkServed db [] (inl (HTTPException 400 detail)).
Proof.
  intros Htype Hprice. unfold serve, create_order.
  destruct (str_in (side trade) ["buy"; "sell"]); simpl.
  - rewrite Htype, Hprice. simpl. eexists. reflexivity.
  - eexists. reflexivity.
Qed.

Lemma limit_without_price_rejected_witness :
  exists detail,
    serve (create_order (mkTradeCreate "BTC/USD" "buy" "limit" 2 None) 7 0) sample_db
    = mkServed sample_db [] (inl (HTTPException 400 detail)).
Proof. apply limit_without_price_rejected; reflexivity. Defined.

(** C5, as stated, fails: an unknown symbol sent with a side that is neither
    buy nor sell is refused by the side check, whose message does not name
    the symbol. *)
Lemma unknown_symbol_bad_side_not_named :
  let trade := mkTradeCreate "XYZ/USD" "hold" "market" 1 None in
  market_by_symbol (symbol trade) sample_db = None /\
  ~ (exists detail,
        response (serve (create_order trade 7 0) sample_db)
        = inl (HTTPException 400 detail) /\
        contains detail (symbol trade) = true).
Proof.
  split; [reflexivity |].
  intros [detail [H Hc]]. vm_compute in H.
  injection H as <-. vm_compute in Hc. discriminate.
Qed.

(** C5, amended. A submission whose symbol resolves to no market is always
    answered 400 with the database untouched; when it passes the side, type
    and price checks the message is [Market <symbol> not found], which
    names the symbol. *)
Theorem unknown_symbol_rejected (db : Database) (trade : TradeCreate)
  (current_user now : nat) :
  market_by_symbol (symbol trade) db = None ->
  (exists detail,
      serve (create_order trade current_user now) db
      = mkServed db [] (inl (HTTPException 400 detail))) /\
  ((side trade = "buy" \/ side trade = "sell") ->
   (order_type trade = "market" \/ order_type trade = "limit") ->
   (order_type trade = "limit" -> truthy (price trade) = true) ->
   serve (create_order trade current_user now) db
   = mkServed db []
       (inl (HTTPException 400 ("Market " ++ symbol trade ++ " not found")%string)) /\
   contains ("Market " ++ symbol trade ++ " not found") (symbol trade) = true).
Proof.
  intros Hm.
  assert (Hok :
    str_in (side trade) ["buy"; "sell"] = true ->
    str_in (order_type trade) ["market"; "limit"] = true ->
    (order_type trade =? "limit")%string && negb (truthy (price trade)) = false ->
    serve (create_order trade current_user now) db
    = mkServed db []
        (inl (HTTPException 400 ("Market " ++ symbol trade ++ " not found")%string))).
  { intros H1 H2 H3. unfold serve, create_order.
    rewrite H1, H2, H3. cbn. rewrite Hm. reflexivity. }
  split.
  - destruct (str_in (side trade) ["buy"; "sell"]) eqn:H1;
      [| eexists; unfold serve, create_order; rewrite H1; reflexivity].
    destruct (str_in (order_type trade) ["market"; "limit"]) eqn:H2;
      [| eexists; unfold serve, create_order; rewrite H1, H2; reflexivity].
    destruct ((order_type trade =? "limit")%string && negb (truthy (price trade)))
      eqn:H3;
      [eexists; unfold serve, create_order; rewrite H1, H2, H3; reflexivity |].
    eexists. now apply Hok.
  - intros Hside Htype Hprice. split.
    + apply Hok; [now apply str_in_side | now apply str_in_order_type |].
      destruct (String.eqb_spec (order_type trade) "limit") as [E | _];
        [| reflexivity].
      rewrite (Hprice E). reflexivity.
    + apply (contains_app "Market "), contains_prefix.
Qed.

Lemma unknown_symbol_rejected_witness :
  let trade := mkTradeCreate "XYZ/USD" "buy" "market" 1 None in
  serve (create_order trade 7 0) sample_db
  = mkServed sample_db [] (inl (HTTPException 400 "Market XYZ/USD not found")) /\
  contains "Market XYZ/USD not found" "XYZ/USD" = true.
Proof.
  refine (proj2 (unknown_symbol_rejected sample_db
                   (mkTradeCreate "XYZ/USD" "buy" "market" 1 None) 7 0 _) _ _ _).
  - reflexivity.
  - left; reflexivity.
  - left; reflexivity.
  - intros H; discriminate H.
Defined.

(** C9, as stated, fails: a limit order with price 0 and a side that is
    neither buy nor sell is refused by the side check, with another
    message. *)
Lemma zero_price_bad_side_other_message :
  let trade := mkTradeCreate "BTC/USD" "hold" "limit" 1 (Some 0%float) in
  response (serve (create_order trade 7 0) sample_db)
  <> inl (HTTPException 400 "Price is required for limit orders").
Proof. vm_compute. discriminate. Qed.

(** C9, amended. A limit order on side buy or sell whose price equals zero
    (0.0 or -0.0) is answered 400 [Price is required for limit orders], as
    one without a price is; nothing is committed. *)
Theorem zero_price_limit_rejected (db : Database) (trade : TradeCreate)
  (current_user now : nat) (p : float) :
  side trade = "buy" \/ side trade = "sell" ->
  order_type trade = "limit" ->
  price trade = Some p ->
  (p =? 0)%float = true ->
  serve (create_order trade current_user now) db
  = mkServed db [] (inl (HTTPException 400 "Price is required for limit orders")).
Proof.
  intros Hside Htype Hprice Hp. unfold serve, create_order.
  rewrite (str_in_side _ Hside), Htype, Hprice. simpl.
  rewrite Hp. reflexivity.
Qed.

Lemma zero_price_limit_rejected_witness :
  serve (create_order (mkTradeCreate "BTC/USD" "sell" "limit" 3 (Some (-0)%float))
                      7 0)
        sample_db
  = mkServed sample_db []
      (inl (HTTPException 400 "Price is required for limit orders")).
Proof.
  apply (zero_price_limit_rejected sample_db _ 7 0 (-0)%float);
    [right; reflexivity | reflexivity | reflexivity | reflexivity].
Defined.

(** C10, as stated, fails: a market order on a symbol that resolves but has
    no [/], sent with a side that is neither buy nor sell, is refused before
    any row is created. *)
Lemma unsplittable_bad_side_no_row :
  let trade := mkTradeCreate "BTCUSD" "hold" "market" 1 None in
  market_by_symbol (symbol trade) sample_db = Some btcusd /\
  split slash (symbol trade) = ["BTCUSD"] /\
  trades (final (serve (create_order trade 7 0) sample_db)) = trades sample_db.
Proof. vm_compute. repeat split. Qed.

(** The path of a market order whose symbol is not a pair. *)
Lemma unsplittable_symbol_aux (db : Database) (trade : TradeCreate)
  (current_user now : nat) (m : Market.t) :
  side trade = "buy" \/ side trade = "sell" ->
  order_type trade = "market" ->
  market_by_symbol (symbol trade) db = Some m ->
  (forall base quote, split slash (symbol trade) <> [base; quote]) ->
  let row := open_trade db trade (Some (Market.price m)) current_user now in
  let db' := with_trades (fun l => l ++ [row]) db in
  serve (create_order trade current_user now) db
  = mkServed db' [db'] (inl (PyError "ValueError")) /\
  portfolios db' = portfolios db /\
  Trade.status row = "open".
Proof.
  intros Hside Htype Hm Hsplit row db'.
  split; [| split; reflexivity].
  subst db' row. unfold serve, create_order, open_trade.
  rewrite (str_in_side _ Hside), Htype. cbn. rewrite Hm. cbn.
  unfold settle.
  destruct (split slash (symbol trade)) as [| b [| q [| x l]]] eqn:E;
    try reflexivity.
  now elim (Hsplit b q).
Qed.

(** C10, amended. A market order on side buy or sell whose symbol resolves
    to a market but does not split at [/] into exactly two parts ends in an
    error after its row was committed with status open: the stored database
    is the old one plus that row, the portfolio table is the old one. *)
Theorem unsplittable_symbol_not_atomic (db : Database) (trade : TradeCreate)
  (current_user now : nat) (m : Market.t) :
  side trade = "buy" \/ side trade = "sell" ->
  order_type trade = "market" ->
  market_by_symbol (symbol trade) db = Some m ->
  (forall base quote, split slash (symbol trade) <> [base; quote]) ->
  let row := open_trade db trade (Some (Market.price m)) current_user now in
  let db' := with_trades (fun l => l ++ [row]) db in
  serve (create_order trade current_user now) db
  = mkServed db' [db'] (inl (PyError "ValueError")) /\
  portfolios db' = portfolios db /\
  Trade.status row = "open".
Proof. exact (unsplittable_symbol_aux db trade current_user now m). Qed.

Lemma unsplittable_symbol_not_atomic_witness :
  let trade := mkTradeCreate "BTCUSD" "buy" "market" 2 None in
  let row := open_trade sample_db trade (Some 100%float) 7 0 in
  let db' := with_trades (fun l => l ++ [row]) sample_db in
  serve (create_order trade 7 0) sample_db
  = mkServed db' [db'] (inl (PyError "ValueError")) /\
  portfolios db' = portfolios sample_db /\
  Trade.status row = "open".
Proof.
  apply (unsplittable_symbol_not_atomic sample_db
           (mkTradeCreate "BTCUSD" "buy" "market" 2 None) 7 0 btcusd).
  - left; reflexivity.
  - reflexivity.
  - reflexivity.
  - intros base quote H; discriminate H.
Defined.

(** ** Portfolio listing *)

Lemma get_portfolio_loop_spec (d : Database) (portfolio : list Portfolio.t) :
  forall result,
    get_portfolio_loop d portfolio result
    = result ++
      map (fun p => mkHolding (Portfolio.asset p) (Portfolio.balance p) (usd_value d p))
          (filter (fun p => negb (Portfolio.balance p =? 0)%float) portfolio).
Proof.
  induction portfolio as [| item rest IH]; intros result; simpl.
  - now rewrite app_nil_r.
  - destruct (Portfolio.balance item =? 0)%float; simpl; rewrite IH.
    + reflexivity.
    + rewrite <- app_assoc. simpl. unfold usd_value.
      now destruct (market_by_symbol _ d).
Qed.

Lemma filter_filter {A : Type} (p q : A -> bool) (l : list A) :
  filter q (filter p l) = filter (fun x => p x && q x) l.
Proof.
  induction l as [| x l IH]; simpl; [reflexivity |].
  destruct (p x); simpl; [destruct (q x) |]; now rewrite IH.
Qed.

Lemma find_app_none {A : Type} (p : A -> bool) (l l' : list A) :
  (forall x, In x l -> p x = false) -> find p (l ++ l') = find p l'.
Proof.
  induction l as [| y l IH]; intros H; simpl; [reflexivity |].
  rewrite (H y (or_introl eq_refl)). apply IH. intros x Hx. apply H. now right.
Qed.

(** What [.first()] finds is the first match in table order. *)
Lemma find_first {A : Type} (p : A -> bool) (l : list A) (x : A) :
  find p l = Some x ->
  exists before after,
    l = before ++ x :: after /\ p x = true /\
    forall y, In y before -> p y = false.
Proof.
  induction l as [| y l IH]; simpl; [discriminate |].
  destruct (p y) eqn:E.
  - intros [= ->]. exists [], l. repeat split; [assumption | contradiction].
  - intros H. destruct (IH H) as (before & after & -> & Hx & Hb).
    exists (y :: before), after. repeat split; [assumption |].
    intros z [<- | Hz]; [assumption | now apply Hb].
Qed.

Lemma get_portfolio_run (db : Database) (current_user : nat) :
  serve (get_portfolio current_user) db
  = mkServed db [] (inr (portfolio_listing db current_user)).
Proof.
  unfold serve, get_portfolio, portfolio_listing. cbn.
  rewrite get_portfolio_loop_spec, filter_filter. reflexivity.
Qed.

(** The valuation of a row, read off the market table: nothing when no
    market row is named [<asset>/USD], else the balance times the price of
    the first such row. *)
Lemma usd_value_markets (db : Database) (row : Portfolio.t) :
  let name := (Portfolio.asset row ++ "/USD")%string in
  ((forall m, In m (markets db) -> Market.symbol m <> name) ->
   usd_value db row = None) /\
  (forall before m after,
      markets db = before ++ m :: after ->
      Market.symbol m = name ->
      (forall m', In m' before -> Market.symbol m' <> name) ->
      usd_value db row = Some (Portfolio.balance row * Market.price m)%float).
Proof.
  intros name. unfold usd_value, market_by_symbol. fold name. split.
  - intros Hno. destruct (find _ (markets db)) as [m |] eqn:E; [| reflexivity].
    apply find_some in E. destruct E as [Hin Hm]. apply String.eqb_eq in Hm.
    now elim (Hno m Hin).
  - intros before m after -> Hm Hb. rewrite find_app_none.
    + simpl. apply String.eqb_eq in Hm. now rewrite Hm.
    + intros x Hx. apply String.eqb_neq. now apply Hb.
Qed.

(** C7. The portfolio listing changes nothing and returns, in table order,
    one entry per row of the user whose balance is not 0 (0.0 and -0.0 are
    left out); the entry carries the row's asset and balance, and as
    [value_usd] nothing when no row of the market table has the symbol
    [<asset>/USD], else the balance times the price of the first row of the
    market table with that symbol. *)
Theorem get_portfolio_listing (db : Database) (current_user : nat) :
  serve (get_portfolio current_user) db
  = mkServed db [] (inr (portfolio_listing db current_user)) /\
  forall e, In e (portfolio_listing db current_user) <->
    exists row,
      In row (portfolios db) /\
      Portfolio.user_id row = current_user /\
      (Portfolio.balance row =? 0)%float = false /\
      h_asset e = Portfolio.asset row /\
      h_balance e = Portfolio.balance row /\
      ((forall m, In m (markets db) ->
                  Market.symbol m <> (Portfolio.asset row ++ "/USD")%string) ->
       value_usd e = None) /\
      (forall before m after,
          markets db = before ++ m :: after ->
          Market.symbol m = (Portfolio.asset row ++ "/USD")%string ->
          (forall m', In m' before ->
                      Market.symbol m' <> (Portfolio.asset row ++ "/USD")%string) ->
          value_usd e = Some (Portfolio.balance row * Market.price m)%float).
Proof.
  split.
  - apply get_portfolio_run.
  - intros e. unfold portfolio_listing. rewrite in_map_iff. split.
    + intros [row [<- Hin]]. apply filter_In in Hin. destruct Hin as [Hin Hl].
      unfold listed in Hl. apply andb_true_iff in Hl. destruct Hl as [Hu Hz].
      exists row. cbn [h_asset h_balance value_usd].
      split; [assumption |]. split; [now apply Nat.eqb_eq |].
      split; [now apply negb_true_iff |]. split; [reflexivity |].
      split; [reflexivity |]. apply usd_value_markets.
    + intros [row [Hin [Hu [Hz [Ha [Hb [Hnone Hsome]]]]]]]. exists row. split.
      * destruct e as [a b v]. cbn [h_asset h_balance value_usd] in *. subst a b.
        f_equal. unfold usd_value, market_by_symbol.
        destruct (find _ (markets db)) as [m |] eqn:E.
        -- destruct (find_first _ _ _ E) as (before & after & Hl & Hm & Hbefore).
           apply String.eqb_eq in Hm. symmetry.
           apply (Hsome before m after Hl Hm).
           intros m' Hm'. apply String.eqb_neq. now apply Hbefore.
        -- symmetry. apply Hnone. intros m Hm.
           apply String.eqb_neq. exact (find_none _ _ E m Hm).
      * apply filter_In. split; [assumption |]. unfold listed.
        apply andb_true_iff. split; [now apply Nat.eqb_eq |].
        now apply negb_true_iff.
Qed.

(** A user with a row of balance 0.0, one of balance -0.0, one in an asset
    with a market and one in an asset without: two entries, one valued. *)
Lemma get_portfolio_listing_sample :
  let db :=
    mkDatabase [] []
      [Portfolio.mk 1 "BTC" 0.5 7; Portfolio.mk 2 "USD" 0 7;
       Portfolio.mk 3 "EUR" (-0) 7; Portfolio.mk 4 "DOGE" 3 7;
       Portfolio.mk 5 "BTC" 9 8]
      [btc_usd; btcusd] in
  response (serve (get_portfolio 7) db)
  = inr [mkHolding "BTC" 0.5 (Some 50%float); mkHolding "DOGE" 3 None].
Proof. reflexivity. Qed.

(** ** Rows and references *)

Section Rows.

Context {A : Type}.
Implicit Types (p : A -> bool) (g : A -> A) (l : list A).

Lemma first_index_some p l i :
  first_index p l = Some i -> exists x, nth_error l i = Some x /\ p x = true.
Proof.
  revert i. induction l as [| y l IH]; intros i; simpl; [discriminate |].
  destruct (p y) eqn:E.
  - intros [= <-]. now exists y.
  - destruct (first_index p l) as [j |]; simpl; [| discriminate].
    intros [= <-]. now apply IH.
Qed.

Lemma first_index_none p l :
  first_index p l = None -> forall x, In x l -> p x = false.
Proof.
  induction l as [| y l IH]; simpl; [contradiction |].
  destruct (p y) eqn:E; [discriminate |].
  destruct (first_index p l); simpl; [discriminate |].
  intros _ x [<- | Hin]; [assumption | now apply IH].
Qed.

Lemma first_index_app p l x :
  first_index p (l ++ [x])
  = match first_index p l with
    | Some i => Some i
    | None => if p x then Some (List.length l) else None
    end.
Proof.
  induction l as [| y l IH]; simpl.
  - now destruct (p x).
  - destruct (p y); [reflexivity |]. rewrite IH.
    destruct (first_index p l); simpl; [reflexivity |]. now destruct (p x).
Qed.

Lemma first_index_update_at p g i l :
  (forall x, p (g x) = p x) ->
  first_index p (update_at i g l) = first_index p l.
Proof.
  intros Hg. revert i. induction l as [| y l IH]; intros [| i]; simpl;
    try reflexivity.
  - now rewrite Hg.
  - now rewrite IH.
Qed.

Lemma nth_error_update_at g i l j :
  nth_error (update_at i g l) j
  = if j =? i then option_map g (nth_error l j) else nth_error l j.
Proof.
  revert i j. induction l as [| y l IH]; intros [| i] [| j]; simpl;
    try reflexivity.
  - now destruct (j =? i).
  - apply IH.
Qed.

Lemma update_at_last g l x :
  update_at (List.length l) g (l ++ [x]) = l ++ [g x].
Proof. induction l as [| y l IH]; simpl; [reflexivity | now rewrite IH]. Qed.

Lemma update_at_app_l g i l l' :
  i < List.length l -> update_at i g (l ++ l') = update_at i g l ++ l'.
Proof.
  revert i. induction l as [| y l IH]; intros [| i] H; simpl in *;
    try lia; try reflexivity.
  rewrite IH; [reflexivity | lia].
Qed.

Lemma update_at_app_r g i l l' :
  update_at (List.length l + i) g (l ++ l') = l ++ update_at i g l'.
Proof. induction l as [| y l IH]; simpl; [reflexivity | now rewrite IH]. Qed.

Lemma nth_error_last l x : nth_error (l ++ [x]) (List.length l) = Some x.
Proof. induction l as [| y l IH]; simpl; [reflexivity | exact IH]. Qed.

Lemma find_first_index p l :
  find p l = match first_index p l with
             | Some i => nth_error l i
             | None => None
             end.
Proof.
  induction l as [| y l IH]; simpl; [reflexivity |].
  destruct (p y); [reflexivity |]. rewrite IH.
  now destruct (first_index p l).
Qed.

End Rows.

(** ** What a submission does, path by path *)

Lemma bind_assoc {A B C : Type} (m : Handler A) (k : A -> Handler B)
  (k' : B -> Handler C) (s : Session) :
  bind (bind m k) k' s = bind m (fun a => bind (k a) k') s.
Proof. unfold bind. now destruct (m s) as [s' [e | a]]. Qed.

Lemma bind_mutate {B : Type} (f : Database -> Database) (k : unit -> Handler B)
  (s : Session) :
  bind (mutate f) k s
  = k tt (mkSession (stored s) (f (pending s)) (commits s) (inactive s)).
Proof. reflexivity. Qed.

Lemma settle_run (trade : TradeCreate) (p : float) (current_user : nat)
  (base quote : string) (s : Session) :
  split slash (symbol trade) = [base; quote] ->
  settle trade (Some p) current_user s
  = (mkSession (stored s)
       (with_portfolios
          (settled current_user base quote (base_leg trade) (quote_leg trade p))
          (pending s))
       (commits s) (inactive s),
     inr tt).
Proof.
  intros Hsplit. unfold settle, settled, base_leg, quote_leg. rewrite Hsplit.
  destruct s as [st pe co ia].
  unfold portfolio_ref, bind, query, with_portfolios. cbn.
  destruct (first_index (owns current_user base) (portfolios pe)) as [rb |];
    destruct (first_index (owns current_user quote) (portfolios pe)) as [rq |];
    destruct (side trade =? "buy")%string; reflexivity.
Qed.

Lemma create_order_market (db : Database) (trade : TradeCreate)
  (current_user now : nat) (m : Market.t) (base quote : string) :
  side trade = "buy" \/ side trade = "sell" ->
  order_type trade = "market" ->
  market_by_symbol (symbol trade) db = Some m ->
  split slash (symbol trade) = [base; quote] ->
  let p := Market.price m in
  let row := open_trade db trade (Some p) current_user now in
  let db1 := with_trades (fun l => l ++ [row]) db in
  let db2 :=
    with_portfolios
      (settled current_user base quote (base_leg trade) (quote_leg trade p))
      (with_trades (fun l => l ++ [Trade.fill now row]) db) in
  serve (create_order trade current_user now) db
  = mkServed db2 [db1; db2] (inr (Trade.fill now row)).
Proof.
  intros Hside Htype Hm Hsplit p row db1 db2.
  subst db2 db1 row p. unfold serve, create_order, open_trade.
  rewrite (str_in_side _ Hside), Htype.
  Opaque settle. cbn. rewrite Hm. cbn. Transparent settle.
  rewrite !bind_assoc, bind_mutate, bind_assoc.
  unfold bind at 1. rewrite (settle_run _ _ _ _ _ _ Hsplit).
  unfold with_trades, with_portfolios. cbn.
  rewrite !update_at_last, nth_error_last. reflexivity.
Qed.

Lemma create_order_limit (db : Database) (trade : TradeCreate)
  (current_user now : nat) (m : Market.t) :
  side trade = "buy" \/ side trade = "sell" ->
  order_type trade = "limit" ->
  truthy (price trade) = true ->
  market_by_symbol (symbol trade) db = Some m ->
  let row := open_trade db trade (price trade) current_user now in
  let db1 := with_trades (fun l => l ++ [row]) db in
  serve (create_order trade current_user now) db = mkServed db1 [db1] (inr row).
Proof.
  intros Hside Htype Hprice Hm row db1.
  subst db1 row. unfold serve, create_order, open_trade.
  rewrite (str_in_side _ Hside), Htype, Hprice. cbn. rewrite Hm. cbn.
  rewrite nth_error_last. reflexivity.
Qed.

(** ** The portfolio table after a settlement *)

Lemma owns_iff (user : nat) (a : string) (p : Portfolio.t) :
  owns user a p = true <-> Portfolio.user_id p = user /\ Portfolio.asset p = a.
Proof.
  unfold owns. rewrite andb_true_iff, Nat.eqb_eq, String.eqb_eq. reflexivity.
Qed.

Lemma owns_bump (user : nat) (a : string) (f : float -> float) (p : Portfolio.t) :
  owns user a (bump f p) = owns user a p.
Proof. reflexivity. Qed.

Lemma owns_new (user : nat) (a : string) (i : nat) (q : float) :
  owns user a (Portfolio.mk i a q user) = true.
Proof. apply owns_iff. now split. Qed.

Lemma balance_in_found (rows : list Portfolio.t) (user : nat) (a : string)
  (i : nat) (x : Portfolio.t) :
  first_index (owns user a) rows = Some i ->
  nth_error rows i = Some x ->
  balance_in rows user a = Portfolio.balance x.
Proof.
  intros Hi Hx. unfold balance_in. now rewrite find_first_index, Hi, Hx.
Qed.

Lemma balance_in_missing (rows : list Portfolio.t) (user : nat) (a : string) :
  first_index (owns user a) rows = None -> balance_in rows user a = 0%float.
Proof.
  intros Hi. unfold balance_in. now rewrite find_first_index, Hi.
Qed.

Lemma nth_error_app_l {A : Type} (l l' : list A) (i : nat) (x : A) :
  nth_error l i = Some x -> nth_error (l ++ l') i = Some x.
Proof.
  intros H. rewrite nth_error_app1; [exact H |].
  apply nth_error_Some. now rewrite H.
Qed.

(** The two references of a settlement: where they point, and what the
    table looks like before the two assignments. *)
Lemma settled_shape (user : nat) (base quote : string) (fb fq : float -> float)
  (rows : list Portfolio.t) :
  exists rb rq rows2 xb xq extra,
    settled user base quote fb fq rows
    = update_at rq (bump fq) (update_at rb (bump fb) rows2) /\
    rows2 = rows ++ extra /\
    Forall (created_for user base quote) extra /\
    (nth_error rows2 rb = Some xb /\ owns user base xb = true /\
     Portfolio.balance xb = balance_in rows user base) /\
    (nth_error rows2 rq = Some xq /\ owns user quote xq = true /\
     Portfolio.balance xq = balance_in rows user quote) /\
    first_index (owns user base) rows2 = Some rb /\
    (base <> quote -> first_index (owns user quote) rows2 = Some rq).
Proof.
  unfold settled.
  destruct (first_index (owns user base) rows) as [ib |] eqn:Eb;
    destruct (first_index (owns user quote) rows) as [iq |] eqn:Eq; simpl.
  - destruct (first_index_some _ _ _ Eb) as [xb [Hxb Hob]].
    destruct (first_index_some _ _ _ Eq) as [xq [Hxq Hoq]].
    exists ib, iq, rows, xb, xq, []. rewrite app_nil_r.
    split; [reflexivity |]. split; [reflexivity |].
    split; [constructor |].
    split; [| split; [| split]]; try assumption.
    + repeat split; try assumption. symmetry; eauto using balance_in_found.
    + repeat split; try assumption. symmetry; eauto using balance_in_found.
    + now intros _.
  - destruct (first_index_some _ _ _ Eb) as [xb [Hxb Hob]].
    eexists ib, (List.length rows), _, xb, _, [_].
    split; [reflexivity |]. split; [reflexivity |].
    split; [repeat (apply Forall_cons || apply Forall_nil);
           unfold created_for; simpl; auto |].
    split; [| split; [| split]].
    + repeat split; [now apply nth_error_app_l | assumption |].
      symmetry; eauto using balance_in_found.
    + repeat split; [apply nth_error_last | apply owns_new |].
      simpl. symmetry. now apply balance_in_missing.
    + now rewrite first_index_app, Eb.
    + intros _. now rewrite first_index_app, Eq, owns_new.
  - destruct (first_index_some _ _ _ Eq) as [xq [Hxq Hoq]].
    eexists (List.length rows), iq, _, _, xq, [_].
    split; [reflexivity |]. split; [reflexivity |].
    split; [repeat (apply Forall_cons || apply Forall_nil);
           unfold created_for; simpl; auto |].
    split; [| split; [| split]].
    + repeat split; [apply nth_error_last | apply owns_new |].
      simpl. symmetry. now apply balance_in_missing.
    + repeat split; [now apply nth_error_app_l | assumption |].
      symmetry; eauto using balance_in_found.
    + now rewrite first_index_app, Eb, owns_new.
    + intros _. now rewrite first_index_app, Eq.
  - eexists (List.length rows), (List.length (rows ++ [_])), _, _, _, [_; _].
    split; [reflexivity |]. split; [now rewrite <- app_assoc |].
    split; [repeat (apply Forall_cons || apply Forall_nil);
           unfold created_for; simpl; auto |].
    split; [| split; [| split]].
    + repeat split; [| apply owns_new |].
      * apply nth_error_app_l, nth_error_last.
      * simpl. symmetry. now apply balance_in_missing.
    + repeat split; [apply nth_error_last | apply owns_new |].
      simpl. symmetry. now apply balance_in_missing.
    + now rewrite !first_index_app, Eb, owns_new.
    + intros Hne. rewrite !first_index_app, Eq, owns_new.
      replace (owns user quote _) with false; [reflexivity |].
      symmetry. unfold owns. simpl. rewrite Nat.eqb_refl. simpl.
      now apply String.eqb_neq.
Qed.

Lemma owns_as (user user' : nat) (a a' : string) (x : Portfolio.t) :
  owns user a x = true ->
  owns user' a' x = (user =? user') && (a =? a')%string.
Proof. intros H. apply owns_iff in H. destruct H as [<- <-]. reflexivity. Qed.

Lemma find_app_miss {A : Type} (p : A -> bool) (l l' : list A) :
  (forall x, In x l' -> p x = false) -> find p (l ++ l') = find p l.
Proof.
  intros H. induction l as [| y l IH]; simpl.
  - destruct (find p l') as [x |] eqn:E; [| reflexivity].
    apply find_some in E. destruct E as [Hin Hp].
    rewrite (H x Hin) in Hp. discriminate.
  - now rewrite IH.
Qed.

Lemma find_update_at_miss {A : Type} (p : A -> bool) (g : A -> A) (i : nat)
  (l : list A) :
  (forall x, p (g x) = p x) ->
  (forall x, nth_error l i = Some x -> p x = false) ->
  find p (update_at i g l) = find p l.
Proof.
  intros Hg. revert i. induction l as [| y l IH]; intros [| i] Hi; simpl;
    try reflexivity.
  - rewrite Hg, (Hi y eq_refl). reflexivity.
  - destruct (p y); [reflexivity |]. apply IH. intros x Hx. now apply Hi.
Qed.

(** A settlement leaves every lookup for another user or another asset as it
    was. *)
Lemma settled_elsewhere (user : nat) (base quote : string) (fb fq : float -> float)
  (rows : list Portfolio.t) (user' : nat) (a : string) :
  user' <> user \/ (a <> base /\ a <> quote) ->
  find (owns user' a) (settled user base quote fb fq rows)
  = find (owns user' a) rows.
Proof.
  intros Hother.
  assert (Hmiss : forall b, b = base \/ b = quote ->
                            (user =? user') && (b =? a)%string = false).
  { intros b Hb. apply andb_false_iff.
    destruct Hother as [Hu | [Hab Haq]].
    - left. apply Nat.eqb_neq. congruence.
    - right. apply String.eqb_neq. destruct Hb as [-> | ->]; congruence. }
  destruct (settled_shape user base quote fb fq rows)
    as (rb & rq & rows2 & xb & xq & extra & -> & -> & Hex
        & (Hxb & Hob & _) & (Hxq & Hoq & _) & _ & _).
  rewrite find_update_at_miss; [| intros; apply owns_bump |].
  - rewrite find_update_at_miss; [| intros; apply owns_bump |].
    + apply find_app_miss. intros x Hx.
      rewrite Forall_forall in Hex. destruct (Hex x Hx) as (_ & Hu & Ha).
      rewrite (owns_as user user' (Portfolio.asset x) a x)
        by (apply owns_iff; now split).
      now apply Hmiss.
    + intros x Hx. rewrite Hxb in Hx. injection Hx as <-.
      rewrite (owns_as _ _ _ _ _ Hob). apply Hmiss. now left.
  - intros x Hx. rewrite nth_error_update_at, Hxq in Hx.
    destruct (rq =? rb); simpl in Hx; injection Hx as <-;
      rewrite ?owns_bump, (owns_as _ _ _ _ _ Hoq); apply Hmiss; now right.
Qed.

(** The entries of two different assets after a settlement. *)
Lemma settled_balance (user : nat) (base quote : string) (fb fq : float -> float)
  (rows : list Portfolio.t) :
  base <> quote ->
  balance_in (settled user base quote fb fq rows) user base
  = fb (balance_in rows user base) /\
  balance_in (settled user base quote fb fq rows) user quote
  = fq (balance_in rows user quote).
Proof.
  intros Hne.
  destruct (settled_shape user base quote fb fq rows)
    as (rb & rq & rows2 & xb & xq & extra & -> & _ & _
        & (Hxb & Hob & Hbb) & (Hxq & Hoq & Hbq) & Hib & Hiq).
  specialize (Hiq Hne).
  assert (Hrr : rq <> rb).
  { intros ->. rewrite Hxb in Hxq. injection Hxq as ->.
    apply owns_iff in Hob, Hoq. destruct Hob as [_ Hb], Hoq as [_ Hq].
    congruence. }
  split.
  - rewrite (balance_in_found _ _ _ rb (bump fb xb)).
    + rewrite <- Hbb. reflexivity.
    + rewrite !first_index_update_at by (intros; apply owns_bump). exact Hib.
    + rewrite nth_error_update_at.
      destruct (Nat.eqb_spec rb rq) as [E | _]; [now elim Hrr |].
      rewrite nth_error_update_at, Nat.eqb_refl, Hxb. reflexivity.
  - rewrite (balance_in_found _ _ _ rq (bump fq xq)).
    + rewrite <- Hbq. reflexivity.
    + rewrite !first_index_update_at by (intros; apply owns_bump). exact Hiq.
    + rewrite nth_error_update_at, Nat.eqb_refl, nth_error_update_at.
      destruct (Nat.eqb_spec rq rb) as [E | _]; [now elim Hrr |].
      rewrite Hxq. reflexivity.
Qed.

(** When base and quote are the same asset and the user has an entry for
    it, both references are that entry and it gets both assignments. *)
Lemma settled_alias (user : nat) (a : string) (fb fq : float -> float)
  (rows : list Portfolio.t) :
  find (owns user a) rows <> None ->
  balance_in (settled user a a fb fq rows) user a
  = fq (fb (balance_in rows user a)).
Proof.
  intros Hfound. unfold settled.
  destruct (first_index (owns user a) rows) as [i |] eqn:Ei.
  - destruct (first_index_some _ _ _ Ei) as [x [Hx Ho]]. simpl.
    rewrite (balance_in_found _ _ _ i (bump fq (bump fb x))).
    + rewrite (balance_in_found _ _ _ _ _ Ei Hx). reflexivity.
    + rewrite !first_index_update_at by (intros; apply owns_bump). exact Ei.
    + rewrite !nth_error_update_at, Nat.eqb_refl, Hx. reflexivity.
  - elim Hfound. now rewrite find_first_index, Ei.
Qed.

(** With no row of the user in the table, a settlement adds exactly two
    rows. *)
Lemma settled_fresh (user : nat) (base quote : string) (fb fq : float -> float)
  (rows : list Portfolio.t) :
  (forall r, In r rows -> Portfolio.user_id r <> user) ->
  let id1 := next_id (map Portfolio.id rows) in
  let id2 := next_id (map Portfolio.id rows ++ [id1]) in
  settled user base quote fb fq rows
  = rows ++ [Portfolio.mk id1 base (fb 0%float) user;
             Portfolio.mk id2 quote (fq 0%float) user].
Proof.
  intros Hnone id1 id2.
  assert (Hmiss : forall a, first_index (owns user a) rows = None).
  { intros a. destruct (first_index (owns user a) rows) as [i |] eqn:E;
      [| reflexivity].
    destruct (first_index_some _ _ _ E) as [x [Hx Ho]].
    apply owns_iff in Ho. destruct Ho as [Hu _].
    apply nth_error_In in Hx. now elim (Hnone x Hx). }
  unfold settled. rewrite !Hmiss. simpl.
  rewrite (update_at_app_l _ (List.length rows))
    by (rewrite length_app; simpl; lia).
  rewrite update_at_last.
  replace (List.length (rows ++ [_])) with (List.length (rows ++ [bump fb
    (Portfolio.mk id1 base 0%float user)])) by (rewrite !length_app; reflexivity).
  rewrite update_at_last, <- app_assoc, map_app. reflexivity.
Qed.

Lemma settled_entries (user : nat) (base quote : string) (fb fq : float -> float)
  (rows : list Portfolio.t) :
  find (owns user base) (settled user base quote fb fq rows) <> None /\
  find (owns user quote) (settled user base quote fb fq rows) <> None.
Proof.
  destruct (settled_shape user base quote fb fq rows)
    as (rb & rq & rows2 & xb & xq & extra & -> & _ & _
        & (Hxb & Hob & _) & (Hxq & Hoq & _) & _ & _).
  assert (H : forall a r x, nth_error rows2 r = Some x -> owns user a x = true ->
    find (owns user a) (update_at rq (bump fq) (update_at rb (bump fb) rows2))
    <> None).
  { intros a r x Hx Ho Hf. rewrite find_first_index in Hf.
    rewrite !first_index_update_at in Hf by (intros; apply owns_bump).
    destruct (first_index (owns user a) rows2) as [i |] eqn:E.
    - destruct (first_index_some _ _ _ E) as [y [Hy _]].
      rewrite !nth_error_update_at, Hy in Hf.
      destruct (i =? rq), (i =? rb); discriminate.
    - apply nth_error_In in Hx.
      rewrite (first_index_none _ _ E x Hx) in Ho. discriminate. }
  split; eauto.
Qed.

(** ** Settlement of a market order *)

Lemma side_sell_not_buy (trade : TradeCreate) :
  side trade = "sell" -> (side trade =? "buy")%string = false.
Proof. intros ->. reflexivity. Qed.

Lemma side_buy (trade : TradeCreate) :
  side trade = "buy" -> (side trade =? "buy")%string = true.
Proof. intros ->. reflexivity. Qed.

Lemma rows_of_nil (d : Database) (user : nat) :
  rows_of d user = [] ->
  forall r, In r (portfolios d) -> Portfolio.user_id r <> user.
Proof.
  unfold rows_of. intros H r Hin Hu.
  assert (Hr : In r (filter (fun p => Portfolio.user_id p =? user) (portfolios d))).
  { apply filter_In. split; [assumption | now apply Nat.eqb_eq]. }
  rewrite H in Hr. contradiction.
Qed.

(** C1, as stated, fails: a market buy on a symbol that names a market but
    has no [/] leaves a user without portfolio rows without any, where the
    claim promises two. *)
Lemma market_buy_unsplittable_no_rows :
  let trade := mkTradeCreate "BTCUSD" "buy" "market" 2 None in
  let db' := final (serve (create_order trade 7 0) sample_db) in
  market_by_symbol (symbol trade) sample_db = Some btcusd /\
  rows_of sample_db 7 = [] /\
  rows_of db' 7 = [] /\
  ~ (exists base quote, rows_of db' 7 = [base; quote]).
Proof.
  vm_compute. repeat split. intros [b [q H]]. discriminate H.
Qed.

(** C1, amended. For a market order on side buy or sell whose symbol names
    a market of price P and splits at [/] into exactly a base and a quote
    asset, the order is accepted and filled and the user ends with an entry
    for each asset; the lookups of other users and of other assets answer as
    before.  In binary64 arithmetic, as the balances are stored: for two
    different assets the looked-up base entry reads old balance (zero when
    it was missing) + amount after a buy and - amount after a sell, the quote
    entry old balance - amount*P after a buy and + amount*P after a sell; when
    base and quote are one asset with an entry, that entry gets both
    updates, base first; a user without rows ends with exactly two, base
    with balance 0 + amount and quote with balance 0 - amount*P for a buy,
    which equal amount and -(amount*P) as numbers unless these are NaN, and
    with the signs flipped for a sell. *)
Theorem market_order_settlement (db : Database) (trade : TradeCreate)
  (current_user now : nat) (m : Market.t) (base quote : string) :
  side trade = "buy" \/ side trade = "sell" ->
  order_type trade = "market" ->
  market_by_symbol (symbol trade) db = Some m ->
  split slash (symbol trade) = [base; quote] ->
  let P := Market.price m in
  let A := amount trade in
  let served := serve (create_order trade current_user now) db in
  let db' := final served in
  (exists t, response served = inr t /\ Trade.status t = "filled") /\
  (entry db' current_user base <> None /\ entry db' current_user quote <> None) /\
  (forall user a,
      user <> current_user \/ (a <> base /\ a <> quote) ->
      entry db' user a = entry db user a) /\
  (base <> quote ->
   (side trade = "buy" ->
    balance_of db' current_user base = (balance_of db current_user base + A)%float /\
    balance_of db' current_user quote
    = (balance_of db current_user quote - A * P)%float) /\
   (side trade = "sell" ->
    balance_of db' current_user base = (balance_of db current_user base - A)%float /\
    balance_of db' current_user quote
    = (balance_of db current_user quote + A * P)%float)) /\
  (base = quote -> entry db current_user base <> None ->
   (side trade = "buy" ->
    balance_of db' current_user base
    = (balance_of db current_user base + A - A * P)%float) /\
   (side trade = "sell" ->
    balance_of db' current_user base
    = (balance_of db current_user base - A + A * P)%float)) /\
  (rows_of db current_user = [] ->
   exists r1 r2,
     rows_of db' current_user = [r1; r2] /\
     Portfolio.asset r1 = base /\ Portfolio.asset r2 = quote /\
     (side trade = "buy" ->
      Portfolio.balance r1 = (0 + A)%float /\
      Portfolio.balance r2 = (0 - A * P)%float /\
      (is_nan A = false -> (Portfolio.balance r1 =? A)%float = true) /\
      (is_nan (A * P) = false ->
       (Portfolio.balance r2 =? - (A * P))%float = true)) /\
     (side trade = "sell" ->
      Portfolio.balance r1 = (0 - A)%float /\
      Portfolio.balance r2 = (0 + A * P)%float /\
      (is_nan A = false -> (Portfolio.balance r1 =? - A)%float = true) /\
      (is_nan (A * P) = false ->
       (Portfolio.balance r2 =? A * P)%float = true))).
Proof.
  intros Hside Htype Hm Hsplit P A served db'.
  pose proof (create_order_market db trade current_user now m base quote
                Hside Htype Hm Hsplit) as Hrun.
  cbv zeta in Hrun. subst db' served P A. rewrite Hrun. clear Hrun.
  unfold entry, balance_of, rows_of. cbn [final response portfolios
    with_portfolios with_trades].
  split; [eexists; split; reflexivity |].
  split; [apply settled_entries |].
  split; [intros user a; apply settled_elsewhere |].
  split.
  { intros Hne.
    destruct (settled_balance current_user base quote (base_leg trade)
                (quote_leg trade (Market.price m)) (portfolios db) Hne)
      as [-> ->].
    unfold base_leg, quote_leg.
    split; intros Hs;
      [rewrite (side_buy _ Hs) | rewrite (side_sell_not_buy _ Hs)];
      split; reflexivity. }
  split.
  { intros <- Hentry. rewrite (settled_alias _ _ _ _ _ Hentry).
    unfold base_leg, quote_leg.
    split; intros Hs;
      [rewrite (side_buy _ Hs) | rewrite (side_sell_not_buy _ Hs)];
      reflexivity. }
  intros Hnone.
  rewrite (settled_fresh _ _ _ _ _ _ (rows_of_nil db current_user Hnone)).
  rewrite filter_app. unfold rows_of in Hnone. rewrite Hnone. simpl.
  rewrite Nat.eqb_refl. do 2 eexists.
  split; [reflexivity |]. split; [reflexivity |]. split; [reflexivity |].
  unfold base_leg, quote_leg. simpl.
  split; intros Hs;
    [rewrite (side_buy _ Hs) | rewrite (side_sell_not_buy _ Hs)];
    (split; [reflexivity |]); (split; [reflexivity |]);
    split; first [apply zero_add | apply zero_sub].
Qed.

Lemma market_order_settlement_witness :
  let trade := mkTradeCreate "BTC/USD" "buy" "market" 2 None in
  let db' := final (serve (create_order trade 7 0) sample_db) in
  exists r1 r2,
    rows_of db' 7 = [r1; r2] /\
    Portfolio.asset r1 = "BTC" /\ Portfolio.asset r2 = "USD" /\
    (Portfolio.balance r1 =? 2)%float = true /\
    (Portfolio.balance r2 =? - (2 * 100))%float = true.
Proof.
  destruct (market_order_settlement sample_db
              (mkTradeCreate "BTC/USD" "buy" "market" 2 None) 7 0 btc_usd
              "BTC" "USD" (or_introl eq_refl) eq_refl eq_refl eq_refl)
    as (_ & _ & _ & _ & _ & H).
  destruct (H eq_refl) as (r1 & r2 & Hrows & H1 & H2 & Hbuy & _).
  destruct (Hbuy eq_refl) as (_ & _ & Hb1 & Hb2).
  exists r1, r2. repeat split; try assumption;
    [apply Hb1 | apply Hb2]; reflexivity.
Defined.

(** ** Every path of a submission *)

Lemma str_in_two (s a b : string) :
  str_in s [a; b] = true -> s = a \/ s = b.
Proof.
  unfold str_in. simpl. rewrite orb_false_r, orb_true_iff, !String.eqb_eq. tauto.
Qed.

Lemma create_order_outcome (db : Database) (trade : TradeCreate)
  (current_user now : nat) :
  Outcome db trade current_user now (serve (create_order trade current_user now) db).
Proof.
  destruct (str_in (side trade) ["buy"; "sell"]) eqn:H1;
    [| unfold serve, create_order; rewrite H1; apply Refused].
  destruct (str_in (order_type trade) ["market"; "limit"]) eqn:H2;
    [| unfold serve, create_order; rewrite H1, H2; apply Refused].
  destruct ((order_type trade =? "limit")%string && negb (truthy (price trade)))
    eqn:H3;
    [unfold serve, create_order; rewrite H1, H2, H3; apply Refused |].
  destruct (market_by_symbol (symbol trade) db) as [m |] eqn:Hm;
    [| unfold serve, create_order; rewrite H1, H2, H3; cbn; rewrite Hm;
       apply Refused].
  apply str_in_two in H1.
  destruct (str_in_two _ _ _ H2) as [Hty | Hty].
  - destruct (split slash (symbol trade)) as [| b [| q [| x l]]] eqn:E.
    1, 2, 4:
      rewrite (proj1 (unsplittable_symbol_aux db trade current_user now m
                        H1 Hty Hm ltac:(intros ? ?; rewrite E; discriminate)));
      apply (Broken _ _ _ _ m); try assumption;
      intros ? ?; rewrite E; discriminate.
    rewrite (create_order_market db trade current_user now m b q H1 Hty Hm E).
    now apply (Filled _ _ _ _ m b q).
  - rewrite Hty in H3. simpl in H3. apply negb_false_iff in H3.
    rewrite (create_order_limit db trade current_user now m H1 Hty H3 Hm).
    now apply (Resting _ _ _ _ m).
Qed.

(** ** Trades are only ever appended, open or filled *)

Lemma grows_refl (d : Database) : grows d d.
Proof. exists []. split; [now rewrite app_nil_r | constructor]. Qed.

Lemma grows_trans (d1 d2 d3 : Database) :
  grows d1 d2 -> grows d2 d3 -> grows d1 d3.
Proof.
  intros [m1 [H1 F1]] [m2 [H2 F2]]. exists (m1 ++ m2). split.
  - now rewrite H2, H1, app_assoc.
  - apply Forall_app. now split.
Qed.

Lemma grows_same_trades (d0 d d' : Database) :
  trades d' = trades d -> grows d0 d -> grows d0 d'.
Proof. intros E [m [H F]]. exists m. now rewrite E. Qed.

Lemma grows_append (d0 d : Database) (t : Trade.t) :
  open_or_filled t -> grows d0 d ->
  grows d0 (with_trades (fun l => l ++ [t]) d).
Proof.
  intros Ht [m [H F]]. exists (m ++ [t]). split.
  - simpl. now rewrite H, app_assoc.
  - apply Forall_app. split; [assumption | now constructor].
Qed.

Section Steady.

Context {A B : Type}.

Lemma steady_ret (a : A) : steady (ret a).
Proof. now intros d0 s H. Qed.

Lemma steady_raise (e : Exn) : steady (@raise A e).
Proof. now intros d0 s H. Qed.

Lemma steady_query (q : Database -> A) : steady (query q).
Proof. now intros d0 s H. Qed.

Lemma steady_lift (r : Exn + A) : steady (lift r).
Proof. destruct r; [apply steady_raise | apply steady_ret]. Qed.

Lemma steady_bind (m : Handler A) (k : A -> Handler B) :
  steady m -> (forall a, steady (k a)) -> steady (bind m k).
Proof.
  intros Hm Hk d0 s Hs. unfold bind. specialize (Hm d0 s Hs).
  destruct (m s) as [s' [e | a]]; [exact Hm | now apply Hk].
Qed.

Lemma steady_try (m : Handler A) (h : Exn -> Handler A) :
  steady m -> (forall e, steady (h e)) -> steady (try_except m h).
Proof.
  intros Hm Hh d0 s Hs. unfold try_except. specialize (Hm d0 s Hs).
  destruct (m s) as [s' [e | a]]; [now apply Hh | exact Hm].
Qed.

End Steady.

Lemma steady_commit : steady commit.
Proof.
  intros d0 s (Hst & Hpe & Hco). unfold commit.
  destruct (inactive s); repeat split; simpl; try assumption.
  apply Forall_app. split; [assumption | now constructor].
Qed.

Lemma steady_flush_error {A : Type} (e : Exn) : steady (@flush_error A e).
Proof. intros d0 s (Hst & Hpe & Hco). repeat split; simpl; assumption. Qed.

Lemma steady_mutate (f : Database -> Database) :
  (forall d, trades (f d) = trades d) -> steady (mutate f).
Proof.
  intros Hf d0 s (Hst & Hpe & Hco). repeat split; simpl; try assumption.
  now apply (grows_same_trades d0 (pending s)).
Qed.

Lemma steady_add_trade (mk : nat -> Trade.t) :
  (forall i, open_or_filled (mk i)) -> steady (add_trade mk).
Proof.
  intros Hmk d0 s (Hst & Hpe & Hco). repeat split; simpl; try assumption.
  now apply grows_append.
Qed.

Lemma steady_bot_at (ref : nat) : steady (bot_at ref).
Proof.
  apply steady_bind; [apply steady_query |].
  intros [b |]; [apply steady_ret | apply steady_raise].
Qed.

Lemma steady_add_bot (mk : nat -> Bot.t) : steady (add_bot mk).
Proof.
  apply steady_bind; [apply steady_query | intros ref].
  apply steady_bind; [now apply steady_mutate | intros _; apply steady_ret].
Qed.

Lemma steady_get_portfolio (current_user : nat) :
  steady (get_portfolio current_user).
Proof.
  repeat (apply steady_bind; [apply steady_query | intros ?]).
  apply steady_ret.
Qed.

Lemma serve_steady {A : Type} (h : Handler A) (db : Database) :
  steady h ->
  grows db (final (serve h db)) /\ Forall (grows db) (history (serve h db)).
Proof.
  intros Hh. unfold serve.
  specialize (Hh db (mkSession db db [] false)).
  destruct (h (mkSession db db [] false)) as [s r]. simpl in *.
  destruct Hh as (Hst & _ & Hco); [| now split].
  repeat split; simpl; auto using grows_refl.
Qed.

Lemma create_order_grows (db : Database) (trade : TradeCreate)
  (current_user now : nat) :
  grows db (final (serve (create_order trade current_user now) db)) /\
  Forall (grows db) (history (serve (create_order trade current_user now) db)).
Proof.
  assert (Hopen : forall p,
    grows db (with_trades
                (fun l => l ++ [open_trade db trade p current_user now]) db)).
  { intros p. apply grows_append; [now left | apply grows_refl]. }
  destruct (create_order_outcome db trade current_user now); simpl.
  - split; [apply grows_refl | constructor].
  - split; [apply Hopen | repeat constructor; apply Hopen].
  - split; [apply Hopen | repeat constructor; apply Hopen].
  - assert (Hfill : grows db db2).
    { apply (grows_same_trades db
               (with_trades (fun l => l ++ [Trade.fill now row]) db));
        [reflexivity |].
      apply grows_append; [now right | apply grows_refl]. }
    split; [exact Hfill | repeat constructor; [apply Hopen | exact Hfill]].
Qed.

Lemma checked_order_inv (db : Database) (trade : TradeCreate) :
  checked_order db trade = true ->
  (side trade = "buy" \/ side trade = "sell") /\
  (order_type trade = "market" \/ order_type trade = "limit") /\
  (order_type trade = "limit" -> truthy (price trade) = true) /\
  exists m, market_by_symbol (symbol trade) db = Some m.
Proof.
  unfold checked_order. rewrite !andb_true_iff.
  intros [[[H1 H2] H3] H4].
  split; [now apply str_in_two |]. split; [now apply str_in_two |].
  split.
  - intros E. rewrite E in H3. simpl in H3. now apply negb_true_iff, negb_false_iff in H3.
  - destruct (market_by_symbol (symbol trade) db) as [m |]; [| discriminate].
    now exists m.
Qed.

Lemma is_pair_true (sym : string) :
  is_pair sym = true -> exists base quote, split slash sym = [base; quote].
Proof.
  unfold is_pair. destruct (split slash sym) as [| b [| q [| x l]]];
    try discriminate. intros _. now exists b, q.
Qed.

Lemma is_pair_false (sym : string) :
  is_pair sym = false -> forall base quote, split slash sym <> [base; quote].
Proof. unfold is_pair. intros H base quote E. rewrite E in H. discriminate. Qed.

Lemma valid_order_inv (db : Database) (trade : TradeCreate) :
  valid_order db trade = true ->
  (side trade = "buy" \/ side trade = "sell") /\
  (order_type trade = "market" \/ order_type trade = "limit") /\
  (order_type trade = "limit" -> truthy (price trade) = true) /\
  exists m,
    market_by_symbol (symbol trade) db = Some m /\
    (order_type trade = "market" ->
     exists base quote, split slash (symbol trade) = [base; quote]).
Proof.
  unfold valid_order. rewrite !andb_true_iff.
  intros [[[[H1 H2] H3] H4] H5].
  split; [now apply str_in_two |]. split; [now apply str_in_two |].
  split.
  - intros E. rewrite E in H3. simpl in H3. now apply negb_true_iff, negb_false_iff in H3.
  - destruct (market_by_symbol (symbol trade) db) as [m |]; [| discriminate].
    exists m. split; [reflexivity |]. intros E. rewrite E in H5. simpl in H5.
    destruct (split slash (symbol trade)) as [| b [| q [| x l]]];
      try discriminate. now exists b, q.
Qed.

(** [valid_order] is exactly acceptance. *)
Lemma valid_order_accepted (db : Database) (trade : TradeCreate)
  (current_user now : nat) :
  valid_order db trade = true <->
  exists t, response (serve (create_order trade current_user now) db) = inr t.
Proof.
  split.
  - intros H. destruct (valid_order_inv _ _ H) as (Hs & Ht & Hp & m & Hm & Hsp).
    destruct Ht as [Ht | Ht].
    + destruct (Hsp Ht) as (b & q & E).
      rewrite (create_order_market db trade current_user now m b q Hs Ht Hm E).
      eexists. reflexivity.
    + rewrite (create_order_limit db trade current_user now m Hs Ht (Hp Ht) Hm).
      eexists. reflexivity.
  - intros [t Ht]. unfold valid_order.
    destruct (create_order_outcome db trade current_user now)
      as [detail | m Hs Hty Hp Hm | m Hty Hm Hsp | m b q Hs Hty Hm Hsp];
      simpl in Ht; try discriminate.
    + rewrite (str_in_side _ Hs), Hty, Hp, Hm. reflexivity.
    + rewrite (str_in_side _ Hs), Hty, Hm, Hsp. reflexivity.
Qed.

Lemma next_id_above (ids : list nat) (i : nat) : In i ids -> i < next_id ids.
Proof.
  unfold next_id. induction ids as [| j ids IH]; simpl; [contradiction |].
  intros [<- | Hin]; [lia | specialize (IH Hin); lia].
Qed.

Lemma grows_nth (d d' : Database) (i : nat) (t : Trade.t) :
  grows d d' -> nth_error (trades d) i = Some t -> nth_error (trades d') i = Some t.
Proof. intros [more [-> _]] H. now apply nth_error_app_l. Qed.

(** ** The same market order twice *)




(** ** The bot handlers and the service as a whole *)

Ltac steady_step :=
  lazymatch goal with
  | |- steady (ret _) => apply steady_ret
  | |- steady (raise _) => apply steady_raise
  | |- steady (query _) => apply steady_query
  | |- steady (lift _) => apply steady_lift
  | |- steady commit => apply steady_commit
  | |- steady (flush_error _) => apply steady_flush_error
  | |- steady (bot_at _) => apply steady_bot_at
  | |- steady (add_bot _) => apply steady_add_bot
  | |- steady (mutate _) => apply steady_mutate; intros; reflexivity
  | |- steady (add_trade _) => apply steady_add_trade; intros; right; reflexivity
  | |- steady (try_except _ _) => apply steady_try
  | |- steady (bind _ _) => apply steady_bind
  | |- steady (match ?x with _ => _ end) => destruct x
  | |- forall _, _ => intros ?
  end.

Section Service.

Variable json_loads : string -> Exn + json.
Variable float_of_string : string -> option float.
Variable bind_text : json -> Exn + string.

Local Abbreviation run_bot_task' := (run_bot_task json_loads float_of_string bind_text).
Local Abbreviation step' := (step json_loads float_of_string bind_text).
Local Abbreviation run' := (run json_loads float_of_string bind_text).

Lemma steady_run_bot_task (bot_id now : nat) : steady (run_bot_task' bot_id now).
Proof. unfold run_bot_task. repeat steady_step. Qed.

Lemma steady_create_bot (bot : BotBase) (current_user : nat) :
  steady (create_bot json_loads bot current_user).
Proof. unfold create_bot. repeat steady_step. Qed.

Lemma steady_update_bot (bot_id : nat) (bot_data : BotBase) (current_user : nat) :
  steady (update_bot json_loads bot_id bot_data current_user).
Proof. unfold update_bot. repeat steady_step. Qed.

Lemma steady_start_bot (bot_id current_user : nat) :
  steady (start_bot bot_id current_user).
Proof. unfold start_bot. repeat steady_step. Qed.

Lemma steady_stop_bot (bot_id current_user : nat) :
  steady (stop_bot bot_id current_user).
Proof. unfold stop_bot. repeat steady_step. Qed.

Lemma step_grows (w : World) (r : Request) :
  grows (database w) (database (fst (step' w r))) /\
  Forall (grows (database w)) (snd (step' w r)).
Proof.
  destruct r; unfold step; cbn [fst snd database].
  - apply create_order_grows.
  - apply serve_steady, steady_get_portfolio.
  - apply serve_steady, steady_create_bot.
  - apply serve_steady, steady_update_bot.
  - apply serve_steady, steady_start_bot.
  - apply serve_steady, steady_stop_bot.
  - destruct (nth_error (background w) n) as [[bot_id] |]; cbn [fst snd database].
    + apply serve_steady, steady_run_bot_task.
    + split; [apply grows_refl | constructor].
Qed.

Lemma run_grows (requests : list Request) :
  forall w,
    grows (database w) (database (fst (run' w requests))) /\
    Forall (grows (database w)) (snd (run' w requests)).
Proof.
  induction requests as [| r rs IH]; intros w; simpl.
  - split; [apply grows_refl | constructor].
  - destruct (step_grows w r) as [Hw Hh].
    destruct (step' w r) as [w1 h1]. simpl in Hw, Hh.
    destruct (IH w1) as [Hw' Hh'].
    destruct (run' w1 rs) as [w2 h2]. simpl in *.
    split; [now apply (grows_trans _ (database w1)) |].
    apply Forall_app. split; [assumption |].
    eapply Forall_impl; [| exact Hh'].
    intros d Hd. now apply (grows_trans _ (database w1)).
Qed.

(** C8. Along any sequence of requests and background tasks, every state
    the database goes through holds the trades it started with, unchanged
    and in place, followed by rows whose status is open or filled; so when
    the trades at the start are open or filled, every trade of every later
    state is, and none is canceled. *)
Theorem trades_open_or_filled (w : World) (requests : list Request) :
  let w' := fst (run' w requests) in
  let states := snd (run' w requests) in
  Forall (grows (database w)) (database w' :: states) /\
  (Forall open_or_filled (trades (database w)) ->
   Forall (fun d =>
             Forall (fun t => open_or_filled t /\ Trade.status t <> "canceled")
                    (trades d))
          (database w' :: states)).
Proof.
  intros w' states.
  assert (H : Forall (grows (database w)) (database w' :: states)).
  { destruct (run_grows requests w) as [Hw Hh]. now constructor. }
  split; [exact H |]. intros Hstart.
  eapply Forall_impl; [| exact H].
  intros d [more [-> Hmore]].
  assert (Hall : Forall open_or_filled (trades (database w) ++ more))
    by (apply Forall_app; now split).
  eapply Forall_impl; [| exact Hall].
  intros t Ht. split; [exact Ht |].
  destruct Ht as [-> | ->]; discriminate.
Qed.

(** C6, amended. A submission that passes the checks leaves its row at the
    end of the trade table, with the supplied price when the order is a
    limit order and with the price of the market named by the symbol, as
    read by this request, otherwise.  The row of a market order whose symbol
    is a pair is answered filled, with the time of the request as its
    execution time; the row of a market order whose symbol is not a pair
    stays open without execution time and the request ends in an error.  The
    row of a limit order is answered open, has no execution time, and stays
    as it is and where it is in every state the database goes through under
    any later requests and background tasks. *)
Theorem order_price_and_status (db : Database) (trade : TradeCreate)
  (current_user now : nat) :
  checked_order db trade = true ->
  let served := serve (create_order trade current_user now) db in
  exists t m,
    market_by_symbol (symbol trade) db = Some m /\
    trades (final served) = trades db ++ [t] /\
    Trade.price t = (if (order_type trade =? "limit")%string then price trade
                     else Some (Market.price m)) /\
    (order_type trade = "market" -> is_pair (symbol trade) = true ->
     response served = inr t /\
     Trade.status t = "filled" /\ Trade.executed_at t = Some now) /\
    (order_type trade = "market" -> is_pair (symbol trade) = false ->
     response served = inl (PyError "ValueError") /\
     Trade.status t = "open" /\ Trade.executed_at t = None) /\
    (order_type trade = "limit" ->
     response served = inr t /\
     Trade.status t = "open" /\ Trade.executed_at t = None /\
     forall w requests,
       database w = final served ->
       Forall (fun d => nth_error (trades d) (List.length (trades db)) = Some t)
              (database (fst (run' w requests)) :: snd (run' w requests))).
Proof.
  intros Hchecked served.
  destruct (checked_order_inv _ _ Hchecked) as (Hs & Ht & Hp & m & Hm).
  subst served. destruct Ht as [Ht | Ht].
  - destruct (is_pair (symbol trade)) eqn:Hpair.
    + destruct (is_pair_true _ Hpair) as (b & q & E).
      rewrite (create_order_market db trade current_user now m b q Hs Ht Hm E).
      eexists _, m. split; [exact Hm |]. split; [reflexivity |]. rewrite Ht.
      split; [reflexivity |]. split; [now repeat split |].
      split; discriminate.
    + destruct (unsplittable_symbol_aux db trade current_user now m Hs Ht Hm
                  (is_pair_false _ Hpair)) as (-> & _ & _).
      eexists _, m. split; [exact Hm |]. split; [reflexivity |]. rewrite Ht.
      split; [reflexivity |]. split; [discriminate |].
      split; [now repeat split | discriminate].
  - rewrite (create_order_limit db trade current_user now m Hs Ht (Hp Ht) Hm).
    eexists _, m. split; [exact Hm |]. split; [reflexivity |]. rewrite Ht.
    split; [reflexivity |]. split; [discriminate |]. split; [discriminate |].
    intros _.
    split; [reflexivity |]. split; [reflexivity |]. split; [reflexivity |].
    intros w requests Hw.
    destruct (run_grows requests w) as [Hfin Hhist].
    assert (Hall : Forall (grows (database w))
                     (database (fst (run' w requests)) :: snd (run' w requests)))
      by now constructor.
    eapply Forall_impl; [| exact Hall].
    intros d Hd. apply (grows_nth _ _ _ _ Hd). rewrite Hw. simpl.
    apply nth_error_last.
Qed.

End Service.

(** C6, as stated, fails: a market order on a symbol that names a market but
    is not a pair passes every check, and its row is stored open, without
    execution time, where the claim promises filled. *)
Lemma unsplittable_market_order_stays_open :
  let trade := mkTradeCreate "BTCUSD" "buy" "market" 2 None in
  let served := serve (create_order trade 7 5) sample_db in
  checked_order sample_db trade = true /\
  response served = inl (PyError "ValueError") /\
  trades (final served)
  = [Trade.mk 1 "BTCUSD" "buy" "market" 2 (Some 100%float) "open" 5 None 7 None].
Proof. vm_compute. repeat split. Qed.

Lemma order_price_and_status_witness :
  let trade := mkTradeCreate "BTC/USD" "buy" "limit" 2 (Some 95%float) in
  let served := serve (create_order trade 7 5) sample_db in
  exists t,
    response served = inr t /\
    Trade.price t = Some 95%float /\ Trade.status t = "open" /\
    nth_error
      (trades (database (fst (run sample_loads sample_float sample_bind
                                  (mkWorld (final served) [])
                                  [CreateOrder trade 7 6;
                                   CreateOrder (mkTradeCreate "BTC/USD" "sell"
                                                  "market" 1 None) 7 7]))))
      0 = Some t.
Proof.
  destruct (order_price_and_status sample_loads sample_float sample_bind
              sample_db (mkTradeCreate "BTC/USD" "buy" "limit" 2 (Some 95%float))
              7 5 eq_refl)
    as (t & m & Hm & Htr & Hp & _ & _ & Hl).
  destruct (Hl eq_refl) as (Hr & Hst & _ & Hkeep).
  exists t. split; [exact Hr |]. split; [exact Hp |]. split; [exact Hst |].
  exact (Forall_inv (Hkeep (mkWorld _ []) _ eq_refl)).
Defined.

(** ** Starting a bot *)


Section Starting.

Variable json_loads : string -> Exn + json.
Variable float_of_string : string -> option float.
Variable bind_text : json -> Exn + string.

Local Abbreviation run_bot_task' := (run_bot_task json_loads float_of_string bind_text).

(** The unit of work on a bot whose configuration is an object with text
    for symbol and side and a number for amount, each possibly absent. *)
Lemma run_bot_task_trade (d : Database) (bot_id now ref : nat) (b : Bot.t)
  (cfg v : json) (sym sd : string) (amt : float) :
  bot_ref (fun b => Bot.id b =? bot_id) d = Some ref ->
  nth_error (bots d) ref = Some b ->
  json_loads (Bot.config b) = inr cfg ->
  config_get cfg "symbol" (JStr "BTC/USD") = inr (JStr sym) ->
  config_get cfg "side" (JStr "buy") = inr (JStr sd) ->
  config_get cfg "amount" (JFloat 0.01) = inr v ->
  py_float float_of_string v = inr amt ->
  let running := with_bots (update_at ref (Bot.set_status "running")) d in
  match market_by_symbol sym d with
  | Some m =>
      let after :=
        with_trades (fun l => l ++ [bot_trade d b sym sd amt m now]) running in
      serve (run_bot_task' bot_id now) d = mkServed after [running; after] (inr tt) /\
      portfolios after = portfolios d
  | None =>
      serve (run_bot_task' bot_id now) d = mkServed running [running] (inr tt)
  end.
Proof.
  intros Href Hb Hcfg Hsym Hsd Hv Hamt running.
  assert (Hrun : serve (run_bot_task' bot_id now) d
    = match market_by_symbol sym d with
      | Some m =>
          let after :=
            with_trades (fun l => l ++ [bot_trade d b sym sd amt m now]) running in
          mkServed after [running; after] (inr tt)
      | None => mkServed running [running] (inr tt)
      end).
  { unfold serve, run_bot_task, bot_at, try_except, bind, query. cbn.
    rewrite Href. cbn.
    rewrite nth_error_update_at, Nat.eqb_refl, Hb. cbn.
    rewrite Hcfg. cbn. rewrite Hsym. cbn. rewrite Hsd. cbn. rewrite Hv. cbn.
    rewrite Hamt. cbn. unfold market_by_symbol.
    now destruct (find _ (markets d)) as [m |]. }
  rewrite Hrun. destruct (market_by_symbol sym d) as [m |]; [| reflexivity].
  split; reflexivity.
Qed.


End Starting.


(** A run in which a limit order, a market order and a bot trade are made:
    every state on the way holds open or filled trades only. *)
Lemma trades_open_or_filled_witness :
  let w := mkWorld sample_bot_db [] in
  let requests :=
    [CreateOrder (mkTradeCreate "BTC/USD" "buy" "limit" 2 (Some 95%float)) 7 1;
     CreateOrder (mkTradeCreate "BTC/USD" "sell" "market" 1 None) 7 2;
     StartBot 1 7; Background 0 3; StopBot 1 7] in
  let r := run sample_loads sample_float sample_bind w requests in
  List.length (trades (database (fst r))) = 3 /\
  Forall (fun d =>
            Forall (fun t => open_or_filled t /\ Trade.status t <> "canceled")
                   (trades d))
         (database (fst r) :: snd r).
Proof.
  split; [reflexivity |].
  apply (proj2 (trades_open_or_filled sample_loads sample_float sample_bind
                  (mkWorld sample_bot_db []) _)).
  constructor.
Defined.

(** * Further properties *)

(** ** Relations every handler keeps *)

Section Keeps.

Variable R : Database -> Database -> Prop.
Context {A B : Type}.

Lemma keeps_ret (a : A) : keeps R (ret a).
Proof. now intros d0 s H. Qed.

Lemma keeps_raise (e : Exn) : keeps R (@raise A e).
Proof. now intros d0 s H. Qed.

Lemma keeps_query (q : Database -> A) : keeps R (query q).
Proof. now intros d0 s H. Qed.

Lemma keeps_lift (r : Exn + A) : keeps R (lift r).
Proof. destruct r; [apply keeps_raise | apply keeps_ret]. Qed.

Lemma keeps_bind (m : Handler A) (k : A -> Handler B) :
  keeps R m -> (forall a, keeps R (k a)) -> keeps R (bind m k).
Proof.
  intros Hm Hk d0 s Hs. unfold bind. specialize (Hm d0 s Hs).
  destruct (m s) as [s' [e | a]]; [exact Hm | now apply Hk].
Qed.

Lemma keeps_try (m : Handler A) (h : Exn -> Handler A) :
  keeps R m -> (forall e, keeps R (h e)) -> keeps R (try_except m h).
Proof.
  intros Hm Hh d0 s Hs. unfold try_except. specialize (Hm d0 s Hs).
  destruct (m s) as [s' [e | a]]; [now apply Hh | exact Hm].
Qed.

End Keeps.

Lemma keeps_commit (R : Database -> Database -> Prop) : keeps R commit.
Proof.
  intros d0 s (Hst & Hpe & Hco). unfold commit.
  destruct (inactive s); repeat split; simpl; try assumption.
  apply Forall_app. split; [assumption | now constructor].
Qed.

Lemma keeps_flush_error (R : Database -> Database -> Prop) {A : Type} (e : Exn) :
  keeps R (@flush_error A e).
Proof. intros d0 s (Hst & Hpe & Hco). repeat split; simpl; assumption. Qed.

Lemma keeps_mutate (R : Database -> Database -> Prop) (f : Database -> Database) :
  (forall d0 d, R d0 d -> R d0 (f d)) -> keeps R (mutate f).
Proof.
  intros Hf d0 s (Hst & Hpe & Hco). repeat split; simpl; try assumption.
  now apply Hf.
Qed.

Lemma serve_keeps (R : Database -> Database -> Prop) {A : Type} (h : Handler A)
  (db : Database) :
  R db db -> keeps R h ->
  R db (final (serve h db)) /\ Forall (R db) (history (serve h db)).
Proof.
  intros Hrefl Hh. unfold serve.
  specialize (Hh db (mkSession db db [] false)).
  destruct (h (mkSession db db [] false)) as [s r]. simpl in *.
  destruct Hh as (Hst & _ & Hco); [| now split].
  repeat split; simpl; auto.
Qed.

Ltac keeps_step :=
  lazymatch goal with
  | |- keeps _ (ret _) => apply keeps_ret
  | |- keeps _ (raise _) => apply keeps_raise
  | |- keeps _ (query _) => apply keeps_query
  | |- keeps _ (lift _) => apply keeps_lift
  | |- keeps _ commit => apply keeps_commit
  | |- keeps _ (flush_error _) => apply keeps_flush_error
  | |- keeps _ (mutate _) =>
      apply keeps_mutate; let H := fresh in intros ? ? H; exact H
  | |- keeps _ (add_trade _) => unfold add_trade
  | |- keeps _ (add_portfolio _) => unfold add_portfolio
  | |- keeps _ (add_bot _) => unfold add_bot
  | |- keeps _ (bot_at _) => unfold bot_at
  | |- keeps _ (set_balance_at _ _) => unfold set_balance_at
  | |- keeps _ (try_except _ _) => apply keeps_try
  | |- keeps _ (bind _ _) => apply keeps_bind
  | |- keeps _ (match ?x with _ => _ end) => destruct x
  | |- forall _, _ => intros ?
  end.

Lemma create_order_keeps_markets (trade : TradeCreate) (current_user now : nat) :
  keeps same_markets (create_order trade current_user now).
Proof. unfold create_order, settle. repeat keeps_step. Qed.

Lemma create_order_keeps_bots (trade : TradeCreate) (current_user now : nat) :
  keeps same_bots (create_order trade current_user now).
Proof. unfold create_order, settle. repeat keeps_step. Qed.

Lemma get_portfolio_keeps (R : Database -> Database -> Prop) (current_user : nat) :
  keeps R (get_portfolio current_user).
Proof. unfold get_portfolio. repeat keeps_step. Qed.

Section Separation.

Variable json_loads : string -> Exn + json.
Variable float_of_string : string -> option float.
Variable bind_text : json -> Exn + string.

Local Abbreviation step' := (step json_loads float_of_string bind_text).
Local Abbreviation run' := (run json_loads float_of_string bind_text).

Lemma bot_handlers_keep (R : Database -> Database -> Prop) :
  (forall f d0 d, R d0 d -> R d0 (with_bots f d)) ->
  (forall f d0 d, R d0 d -> R d0 (with_trades f d)) ->
  (forall bot_id now,
      keeps R (run_bot_task json_loads float_of_string bind_text bot_id now)) /\
  (forall bot u, keeps R (create_bot json_loads bot u)) /\
  (forall bot_id bot u, keeps R (update_bot json_loads bot_id bot u)) /\
  (forall bot_id u, keeps R (start_bot bot_id u)) /\
  (forall bot_id u, keeps R (stop_bot bot_id u)).
Proof.
  intros Hb Ht.
  assert (Hmb : forall f, keeps R (mutate (with_bots f)))
    by (intros f; apply keeps_mutate; intros; now apply Hb).
  assert (Hmt : forall f, keeps R (mutate (with_trades f)))
    by (intros f; apply keeps_mutate; intros; now apply Ht).
  (split; [| split; [| split; [| split]]]);
    [intros ? ? | intros ? ? | intros ? ? ? | intros ? ? | intros ? ?];
    unfold run_bot_task, create_bot, update_bot, start_bot, stop_bot;
    repeat first [apply Hmb | apply Hmt | keeps_step].
Qed.

(** The requests chosen by [sel] keep [R] along any run. *)
Lemma run_keeps (R : Database -> Database -> Prop) (sel : Request -> bool) :
  (forall d, R d d) ->
  (forall d1 d2 d3, R d1 d2 -> R d2 d3 -> R d1 d3) ->
  (forall w r, sel r = true ->
               R (database w) (database (fst (step' w r))) /\
               Forall (R (database w)) (snd (step' w r))) ->
  forall requests w,
    forallb sel requests = true ->
    Forall (R (database w))
           (database (fst (run' w requests)) :: snd (run' w requests)).
Proof.
  intros Hrefl Htrans Hstep.
  induction requests as [| r rs IH]; intros w Hsel; simpl.
  - repeat constructor. apply Hrefl.
  - simpl in Hsel. apply andb_true_iff in Hsel. destruct Hsel as [Hr Hrs].
    destruct (Hstep w r Hr) as [Hw Hh].
    destruct (step' w r) as [w1 h1]. simpl in Hw, Hh.
    specialize (IH w1 Hrs).
    destruct (run' w1 rs) as [w2 h2]. simpl in *.
    assert (Hall : Forall (R (database w)) (database w2 :: h2)).
    { eapply Forall_impl; [| exact IH]. intros d Hd. now apply (Htrans _ (database w1)). }
    inversion Hall as [| ? ? Hfin Hrest]; subst.
    constructor; [assumption |]. apply Forall_app. now split.
Qed.

Lemma step_keeps_markets (w : World) (r : Request) :
  same_markets (database w) (database (fst (step' w r))) /\
  Forall (same_markets (database w)) (snd (step' w r)).
Proof.
  destruct (bot_handlers_keep same_markets) as (Ht & Hc & Hu & Hs & Hp);
    [now intros | now intros |].
  destruct r; unfold step; cbn [fst snd database];
    try (apply serve_keeps; [reflexivity |]).
  - apply create_order_keeps_markets.
  - apply get_portfolio_keeps.
  - apply Hc.
  - apply Hu.
  - apply Hs.
  - apply Hp.
  - destruct (nth_error (background w) n) as [[bot_id] |]; cbn [fst snd database].
    + apply serve_keeps; [reflexivity | apply Ht].
    + split; [reflexivity | constructor].
Qed.

(** X1. No request and no background task ever changes the market table:
    every state of every run has the markets, and so the prices, it started
    with. *)
Theorem markets_never_change (w : World) (requests : list Request) :
  Forall (fun d => markets d = markets (database w))
         (database (fst (run' w requests)) :: snd (run' w requests)).
Proof.
  apply (run_keeps same_markets (fun _ => true)).
  - reflexivity.
  - unfold same_markets. intros d1 d2 d3 H1 H2. congruence.
  - intros w' r _. apply step_keeps_markets.
  - now induction requests.
Qed.

(** X2. Balances are written by order submission only, and order submission
    leaves bots alone: a run without order submissions keeps the portfolio
    table in every state, whatever bots are created, updated, started,
    stopped or run; a run of order submissions and portfolio listings keeps
    the bot table and schedules nothing. *)
Theorem orders_and_bots_apart (w : World) (requests : list Request) :
  (forallb (fun r => negb (is_order r)) requests = true ->
   Forall (fun d => portfolios d = portfolios (database w))
          (database (fst (run' w requests)) :: snd (run' w requests))) /\
  (forallb is_trading requests = true ->
   Forall (fun d => bots d = bots (database w))
          (database (fst (run' w requests)) :: snd (run' w requests)) /\
   background (fst (run' w requests)) = background w).
Proof.
  split.
  - apply (run_keeps same_portfolios).
    + reflexivity.
    + unfold same_portfolios. intros d1 d2 d3 H1 H2. congruence.
    + intros w' r Hr.
      destruct (bot_handlers_keep same_portfolios) as (Ht & Hc & Hu & Hs & Hp);
        [now intros | now intros |].
      destruct r; try discriminate; unfold step; cbn [fst snd database];
        try (apply serve_keeps; [reflexivity |]).
      * apply get_portfolio_keeps.
      * apply Hc.
      * apply Hu.
      * apply Hs.
      * apply Hp.
      * destruct (nth_error (background w') n) as [[bot_id] |];
          cbn [fst snd database].
        -- apply serve_keeps; [reflexivity | apply Ht].
        -- split; [reflexivity | constructor].
  - intros Hsel. split.
    + revert Hsel. apply (run_keeps same_bots).
      * reflexivity.
      * unfold same_bots. intros d1 d2 d3 H1 H2. congruence.
      * intros w' r Hr.
        destruct r; try discriminate; unfold step; cbn [fst snd database];
          (apply serve_keeps; [reflexivity |]).
        -- apply create_order_keeps_bots.
        -- apply get_portfolio_keeps.
    + revert w Hsel. induction requests as [| r rs IH]; intros w Hsel;
        [reflexivity |].
      simpl in Hsel. apply andb_true_iff in Hsel. destruct Hsel as [Hr Hrs].
      simpl. specialize (IH (fst (step' w r)) Hrs).
      destruct (step' w r) as [w1 h1] eqn:E1. simpl in IH.
      destruct (run' w1 rs) as [w2 h2]. simpl in *.
      rewrite IH. destruct r; try discriminate; unfold step in E1;
        injection E1 as <- _; reflexivity.
Qed.

End Separation.

Lemma orders_and_bots_apart_witness :
  let run' := run sample_loads sample_float sample_bind in
  let w := mkWorld sample_bot_db [] in
  portfolios (database (fst (run' w [StartBot 1 7; Background 0 3; StopBot 1 7])))
  = [] /\
  bots (database
          (fst (run' w [CreateOrder (mkTradeCreate "BTC/USD" "buy" "market" 2 None)
                          7 1; GetPortfolio 7])))
  = [sample_bot].
Proof.
  split.
  - exact (Forall_inv (proj1 (orders_and_bots_apart sample_loads sample_float
             sample_bind (mkWorld sample_bot_db [])
             [StartBot 1 7; Background 0 3; StopBot 1 7]) eq_refl)).
  - exact (Forall_inv (proj1 (proj2 (orders_and_bots_apart sample_loads
             sample_float sample_bind (mkWorld sample_bot_db [])
             [CreateOrder (mkTradeCreate "BTC/USD" "buy" "market" 2 None) 7 1;
              GetPortfolio 7]) eq_refl))).
Defined.

(** ** Reading orders back *)

Lemma ids_below_next (l : list Trade.t) (x : Trade.t) :
  In x l -> Trade.id x < next_id (map Trade.id l).
Proof. intros H. apply next_id_above, in_map, H. Qed.

Lemma find_new_trade (l : list Trade.t) (t : Trade.t) (user : nat) :
  Trade.id t = next_id (map Trade.id l) ->
  find (fun x => (Trade.id x =? Trade.id t) && (Trade.user_id x =? user)) (l ++ [t])
  = if Trade.user_id t =? user then Some t else None.
Proof.
  intros Hid. rewrite find_app_none.
  - simpl. rewrite Nat.eqb_refl. simpl. now destruct (Trade.user_id t =? user).
  - intros x Hx. apply ids_below_next in Hx. rewrite Hid.
    destruct (Nat.eqb_spec (Trade.id x) (next_id (map Trade.id l))); [lia | reflexivity].
Qed.

(** X3. An accepted order can be read back by its id: the user who
    submitted it gets the very row the submission answered, any other user
    gets 404 [Trade not found]; reading changes nothing. *)
Theorem created_order_read_back (db : Database) (trade : TradeCreate)
  (current_user now : nat) :
  valid_order db trade = true ->
  let served := serve (create_order trade current_user now) db in
  exists t,
    response served = inr t /\
    serve (get_order (Trade.id t) current_user) (final served)
    = mkServed (final served) [] (inr t) /\
    forall other,
      other <> current_user ->
      serve (get_order (Trade.id t) other) (final served)
      = mkServed (final served) [] (inl (HTTPException 404 "Trade not found")).
Proof.
  intros Hvalid served.
  destruct (valid_order_inv _ _ Hvalid) as (Hs & Ht & Hp & m & Hm & Hsp).
  assert (Hshape : exists t,
    response served = inr t /\ trades (final served) = trades db ++ [t] /\
    Trade.id t = next_id (map Trade.id (trades db)) /\
    Trade.user_id t = current_user).
  { subst served. destruct Ht as [Ht | Ht].
    - destruct (Hsp Ht) as (b & q & E).
      rewrite (create_order_market db trade current_user now m b q Hs Ht Hm E).
      eexists. repeat split.
    - rewrite (create_order_limit db trade current_user now m Hs Ht (Hp Ht) Hm).
      eexists. repeat split. }
  destruct Hshape as (t & Hr & Htr & Hid & Hu).
  exists t. split; [exact Hr |].
  assert (Hget : forall user,
    serve (get_order (Trade.id t) user) (final served)
    = mkServed (final served) []
        (if Trade.user_id t =? user then inr t
         else inl (HTTPException 404 "Trade not found"))).
  { intros user. unfold serve, get_order, bind, query. cbn.
    rewrite Htr, (find_new_trade _ _ _ Hid).
    now destruct (Trade.user_id t =? user). }
  split.
  - rewrite Hget, Hu, Nat.eqb_refl. reflexivity.
  - intros other Hne. rewrite Hget, Hu.
    destruct (Nat.eqb_spec current_user other) as [E | _];
      [now elim Hne | reflexivity].
Qed.

Lemma created_order_read_back_witness :
  let trade := mkTradeCreate "BTC/USD" "buy" "limit" 2 (Some 95%float) in
  let served := serve (create_order trade 7 5) sample_db in
  exists t,
    response served = inr t /\
    response (serve (get_order (Trade.id t) 7) (final served)) = inr t /\
    response (serve (get_order (Trade.id t) 8) (final served))
    = inl (HTTPException 404 "Trade not found").
Proof.
  destruct (created_order_read_back sample_db
              (mkTradeCreate "BTC/USD" "buy" "limit" 2 (Some 95%float)) 7 5 eq_refl)
    as (t & Hr & Hown & Hother).
  exists t. split; [exact Hr |]. split.
  - now rewrite Hown.
  - rewrite (Hother 8); [reflexivity | discriminate].
Defined.

(** X4. Reading an order by id never shows another user's order and never
    changes anything: the answer is a stored trade with that id owned by the
    reader, or 404 [Trade not found] when the reader owns no trade with that
    id. *)
Theorem get_order_scoped (db : Database) (trade_id current_user : nat) :
  final (serve (get_order trade_id current_user) db) = db /\
  history (serve (get_order trade_id current_user) db) = [] /\
  match response (serve (get_order trade_id current_user) db) with
  | inr t =>
      In t (trades db) /\ Trade.id t = trade_id /\ Trade.user_id t = current_user
  | inl e =>
      e = HTTPException 404 "Trade not found" /\
      forall t, In t (trades db) ->
                ~ (Trade.id t = trade_id /\ Trade.user_id t = current_user)
  end.
Proof.
  unfold serve, get_order, bind, query. cbn.
  destruct (find _ (trades db)) as [t |] eqn:E; cbn.
  - apply find_some in E. destruct E as [Hin Hp].
    apply andb_true_iff in Hp. rewrite !Nat.eqb_eq in Hp. tauto.
  - repeat split. intros t Hin [Hid Hu].
    pose proof (find_none _ _ E t Hin) as Hp. cbn in Hp.
    rewrite Hid, Hu, !Nat.eqb_refl in Hp. discriminate.
Qed.

(** ** Listing orders *)

Lemma in_firstn {A : Type} (n : nat) (l : list A) (x : A) : In x (firstn n l) -> In x l.
Proof.
  revert l. induction n as [| n IH]; intros [| y l]; simpl; try contradiction.
  intros [-> | H]; [now left | right; now apply IH].
Qed.

Lemma in_skipn {A : Type} (n : nat) (l : list A) (x : A) : In x (skipn n l) -> In x l.
Proof.
  revert l. induction n as [| n IH]; intros [| y l]; simpl; try contradiction;
    try tauto.
  intros H. right. now apply IH.
Qed.

Lemma firstn_full_or_all {A : Type} (n : nat) (l : list A) :
  firstn n l = l \/ List.length (firstn n l) = n.
Proof.
  destruct (Nat.le_gt_cases (List.length l) n) as [H | H].
  - left. now apply firstn_all2.
  - right. rewrite length_firstn. lia.
Qed.

Section Ordering.

Context {A : Type}.
Variable key : A -> nat.

Lemma insert_desc_perm (x : A) (l : list A) :
  Permutation (insert_desc key x l) (x :: l).
Proof.
  induction l as [| y l IH]; simpl; [reflexivity |].
  destruct (key y <=? key x); [reflexivity |].
  rewrite IH. apply perm_swap.
Qed.

Lemma order_by_desc_perm (l : list A) : Permutation (order_by_desc key l) l.
Proof.
  induction l as [| x l IH]; simpl; [reflexivity |].
  rewrite insert_desc_perm. now constructor.
Qed.

Lemma insert_desc_sorted (x : A) (l : list A) :
  newest_first key l -> newest_first key (insert_desc key x l).
Proof.
  unfold newest_first. induction 1 as [| y l Hs IH Hy]; simpl.
  - repeat constructor.
  - destruct (Nat.leb_spec (key y) (key x)) as [Hle | Hlt].
    + constructor; [now constructor |]. constructor; [exact Hle |].
      eapply Forall_impl; [| exact Hy]. simpl. intros b Hb. lia.
    + constructor; [exact IH |].
      apply (Permutation_Forall (Permutation_sym (insert_desc_perm x l))).
      constructor; [lia | exact Hy].
Qed.

Lemma order_by_desc_sorted (l : list A) : newest_first key (order_by_desc key l).
Proof.
  induction l as [| x l IH]; simpl; [constructor | now apply insert_desc_sorted].
Qed.

Lemma newest_first_skipn (n : nat) (l : list A) :
  newest_first key l -> newest_first key (skipn n l).
Proof.
  revert l. induction n as [| n IH]; intros l H; simpl; [exact H |].
  destruct l as [| x l]; [constructor |]. apply IH. now inversion H.
Qed.

Lemma newest_first_firstn (n : nat) (l : list A) :
  newest_first key l -> newest_first key (firstn n l).
Proof.
  revert l. induction n as [| n IH]; intros l H; simpl; [constructor |].
  destruct l as [| x l]; [constructor |].
  inversion H as [| ? ? Hs Hx]; subst. constructor; [now apply IH |].
  apply Forall_forall. intros y Hy. apply in_firstn in Hy.
  revert y Hy. now apply Forall_forall.
Qed.

End Ordering.

Lemma filter_by_In (value : option string) (column : Trade.t -> string)
  (q : list Trade.t) (t : Trade.t) :
  In t (filter_by value column q) <->
  In t q /\ (forall x, value = Some x -> x <> "" -> column t = x).
Proof.
  unfold filter_by. destruct value as [x |]; simpl.
  - destruct (String.eqb_spec x "") as [-> | Hne]; simpl.
    + split; [intros H; split; [exact H | intros x [= <-] Hx; now elim Hx] | tauto].
    + rewrite filter_In, String.eqb_eq. split.
      * intros [H1 H2]. split; [exact H1 |]. now intros y [= <-] _.
      * intros [H1 H2]. split; [exact H1 |]. now apply H2.
  - split; [intros H; split; [exact H | discriminate] | tauto].
Qed.

Lemma filter_by_filter (value : option string) (column : Trade.t -> string)
  (q : list Trade.t) :
  filter_by value column q = filter (fun t => passes value (column t)) q.
Proof.
  unfold filter_by, passes, truthy_str. destruct value as [x |].
  - destruct (x =? "")%string; simpl.
    + induction q as [| t q IH]; simpl; [reflexivity | now rewrite <- IH].
    + apply filter_ext. intros t. simpl. apply String.eqb_sym.
  - induction q as [| t q IH]; simpl; [reflexivity | now rewrite <- IH].
Qed.

(** In a list ordered newest first, what comes before a position is at least
    as new as what comes after. *)
Lemma newest_first_split {A : Type} (key : A -> nat) (n : nat) (l : list A) :
  newest_first key l ->
  forall x y, In x (firstn n l) -> In y (skipn n l) -> key y <= key x.
Proof.
  unfold newest_first. revert l. induction n as [| n IH]; intros l Hl x y Hx Hy;
    simpl in *; [contradiction |].
  destruct l as [| z l]; [contradiction |].
  inversion Hl as [| ? ? Hs Hz]; subst. destruct Hx as [<- | Hx].
  - rewrite Forall_forall in Hz. apply Hz. now apply in_skipn in Hy.
  - now apply (IH l).
Qed.

(** X5. The order listing changes nothing and answers one page of the
    reader's trades: take every stored trade owned by the reader that matches
    the status and symbol filters that were given and are not empty (an
    empty filter text filters nothing), order them newest first, drop the
    first [skip] and answer the next [limit], or what is left of them.  So
    every trade left off the front of the page is at least as new as every
    trade on it. *)
Theorem get_orders_page (db : Database) (status symbol : option string)
  (skip limit current_user : nat) :
  let matching t :=
    Trade.user_id t = current_user /\
    (forall x, status = Some x -> x <> "" -> Trade.status t = x) /\
    (forall x, symbol = Some x -> x <> "" -> Trade.symbol t = x) in
  exists sorted,
    Permutation sorted (filter (wanted status symbol current_user) (trades db)) /\
    (forall t, In t sorted <-> In t (trades db) /\ matching t) /\
    newest_first Trade.created_at sorted /\
    serve (get_orders status symbol skip limit current_user) db
    = mkServed db [] (inr (firstn limit (skipn skip sorted))) /\
    (forall t t', In t (firstn skip sorted) ->
                  In t' (firstn limit (skipn skip sorted)) ->
                  Trade.created_at t' <= Trade.created_at t).
Proof.
  intros matching.
  set (q := filter_by symbol Trade.symbol
              (filter_by status Trade.status
                 (filter (fun t => Trade.user_id t =? current_user) (trades db)))).
  assert (Hq : q = filter (wanted status symbol current_user) (trades db)).
  { subst q. rewrite !filter_by_filter, !filter_filter.
    apply filter_ext. intros t. unfold wanted. now rewrite andb_assoc. }
  exists (order_by_desc Trade.created_at q).
  pose proof (order_by_desc_sorted Trade.created_at q) as Hsorted.
  split; [rewrite <- Hq; apply order_by_desc_perm |].
  split; [| split; [exact Hsorted | split; [reflexivity |]]].
  - intros t. split.
    + intros Ht.
      apply (Permutation_in _ (order_by_desc_perm Trade.created_at q)) in Ht.
      subst q matching. rewrite !filter_by_In, filter_In, Nat.eqb_eq in Ht. tauto.
    + intros Ht.
      apply (Permutation_in _ (Permutation_sym (order_by_desc_perm _ q))).
      subst q matching. rewrite !filter_by_In, filter_In, Nat.eqb_eq. tauto.
  - intros t t' Ht Ht'. apply in_firstn in Ht'.
    now apply (newest_first_split Trade.created_at skip
                 (order_by_desc Trade.created_at q)).
Qed.

(** Two trades, the older one first in the table: a page of one shows the
    newer, and skipping one shows the older. *)
Lemma get_orders_page_sample :
  let old := Trade.mk 1 "BTC/USD" "buy" "limit" 1 (Some 95%float) "open" 10 None 7 None in
  let new := Trade.mk 2 "BTC/USD" "buy" "limit" 1 (Some 96%float) "open" 20 None 7 None in
  let db := mkDatabase [] [old; new] [] [btc_usd] in
  response (serve (get_orders None (Some "") 0 1 7) db) = inr [new] /\
  response (serve (get_orders (Some "open") None 1 1 7) db) = inr [old] /\
  response (serve (get_orders (Some "filled") None 0 5 7) db) = inr [].
Proof. repeat split. Qed.

(** ** An order and its opposite *)

Lemma first_index_app_none {A : Type} (p : A -> bool) (l l' : list A) :
  (forall x, In x l -> p x = false) ->
  first_index p (l ++ l')
  = option_map (fun i => List.length l + i) (first_index p l').
Proof.
  induction l as [| y l IH]; intros H; simpl.
  - now destruct (first_index p l').
  - rewrite (H y (or_introl eq_refl)), IH by (intros x Hx; apply H; now right).
    now destruct (first_index p l').
Qed.

Lemma not_owned (user : nat) (a : string) (rows : list Portfolio.t) :
  (forall r, In r rows -> Portfolio.user_id r <> user) ->
  forall x, In x rows -> owns user a x = false.
Proof.
  intros H x Hx. unfold owns.
  destruct (Nat.eqb_spec (Portfolio.user_id x) user) as [E | _];
    [now elim (H x Hx) | reflexivity].
Qed.

(** A settlement on a table whose only rows of the user are one for base
    and one for quote, two different assets. *)
Lemma settled_two (user : nat) (base quote : string) (fb fq : float -> float)
  (rows : list Portfolio.t) (r1 r2 : Portfolio.t) :
  (forall r, In r rows -> Portfolio.user_id r <> user) ->
  owns user base r1 = true -> owns user quote r2 = true -> base <> quote ->
  settled user base quote fb fq (rows ++ [r1; r2])
  = rows ++ [bump fb r1; bump fq r2].
Proof.
  intros Hnone H1 H2 Hne.
  assert (H12 : owns user quote r1 = false).
  { rewrite (owns_as _ _ _ _ _ H1), Nat.eqb_refl. simpl. now apply String.eqb_neq. }
  unfold settled.
  rewrite !first_index_app_none by now apply not_owned.
  simpl. rewrite H1, H12, H2. simpl.
  rewrite !update_at_app_r. simpl. reflexivity.
Qed.

Lemma opposite_side (trade : TradeCreate) :
  side trade = "buy" \/ side trade = "sell" ->
  side (opposite trade) = "buy" \/ side (opposite trade) = "sell".
Proof. unfold opposite. simpl. intros [-> | ->]; simpl; tauto. Qed.

(** What the two legs of an order and then of its opposite make of zero. *)
Lemma opposite_legs_zero (trade : TradeCreate) (p : float) :
  side trade = "buy" \/ side trade = "sell" ->
  is_finite (amount trade) = true ->
  is_finite (amount trade * p) = true ->
  base_leg (opposite trade) (base_leg trade 0) = 0%float /\
  quote_leg (opposite trade) p (quote_leg trade p 0) = 0%float.
Proof.
  intros Hside HA HAP. unfold base_leg, quote_leg, opposite.
  cbn [side amount]. destruct Hside as [-> | ->]; cbn.
  - split; [now apply add_then_sub | now apply sub_then_add].
  - split; [now apply sub_then_add | now apply add_then_sub].
Qed.

(** X6. For a user without portfolio rows, a market order on a pair of two
    assets followed by the same order on the other side (a buy by a sell, a
    sell by a buy), amount and amount times price being finite numbers,
    leaves exactly two rows, base and quote, both of balance 0.0, and the
    portfolio listing shows nothing.  The rows stay, the balances are back
    at zero. *)
Theorem opposite_order_undoes (db : Database) (trade : TradeCreate)
  (current_user now1 now2 : nat) (m : Market.t) (base quote : string) :
  side trade = "buy" \/ side trade = "sell" ->
  order_type trade = "market" ->
  market_by_symbol (symbol trade) db = Some m ->
  split slash (symbol trade) = [base; quote] ->
  base <> quote ->
  rows_of db current_user = [] ->
  is_finite (amount trade) = true ->
  is_finite (amount trade * Market.price m) = true ->
  let db1 := final (serve (create_order trade current_user now1) db) in
  let db2 := final (serve (create_order (opposite trade) current_user now2) db1) in
  (exists r1 r2,
      rows_of db2 current_user = [r1; r2] /\
      Portfolio.asset r1 = base /\ Portfolio.asset r2 = quote /\
      Portfolio.balance r1 = 0%float /\ Portfolio.balance r2 = 0%float) /\
  serve (get_portfolio current_user) db2 = mkServed db2 [] (inr []).
Proof.
  intros Hside Htype Hm Hsplit Hne Hnone HA HAP db1 db2.
  pose proof (create_order_market db trade current_user now1 m base quote
                Hside Htype Hm Hsplit) as H1.
  cbv zeta in H1. subst db2 db1. rewrite H1. cbn [final].
  set (db1 := with_portfolios _ (with_trades _ db)).
  pose proof (create_order_market db1 (opposite trade) current_user now2 m
                base quote (opposite_side trade Hside) Htype Hm Hsplit) as H2.
  cbv zeta in H2. rewrite H2. cbn [final].
  set (P := Market.price m) in *.
  pose proof (rows_of_nil db current_user Hnone) as Hnot.
  destruct (opposite_legs_zero trade P Hside HA HAP) as [Hzb Hzq].
  assert (Hrows : exists i1 i2,
    settled current_user base quote (base_leg (opposite trade))
      (quote_leg (opposite trade) P) (portfolios db1)
    = portfolios db ++ [Portfolio.mk i1 base 0 current_user;
                        Portfolio.mk i2 quote 0 current_user]).
  { subst db1. cbn [portfolios with_portfolios with_trades].
    rewrite (settled_fresh _ _ _ _ _ _ Hnot).
    rewrite settled_two; try assumption; try apply owns_new.
    unfold bump, Portfolio.set_balance. cbn [Portfolio.balance Portfolio.id
      Portfolio.asset Portfolio.user_id].
    rewrite Hzb, Hzq. now do 2 eexists. }
  destruct Hrows as (i1 & i2 & Hrows).
  assert (Hold : forall p : Portfolio.t -> bool,
    (forall x, p x = true -> Portfolio.user_id x = current_user) ->
    filter p (portfolios db) = []).
  { intros p Hp.
    destruct (filter p (portfolios db)) as [| x l] eqn:E; [reflexivity |].
    assert (Hx : In x (filter p (portfolios db))) by (rewrite E; now left).
    apply filter_In in Hx. destruct Hx as [Hin Hpx].
    now elim (Hnot x Hin (Hp x Hpx)). }
  split.
  - unfold rows_of. cbn [portfolios with_portfolios with_trades].
    rewrite Hrows, filter_app, Hold by (intros x; apply Nat.eqb_eq).
    simpl. rewrite Nat.eqb_refl. do 2 eexists. now repeat split.
  - rewrite get_portfolio_run. unfold portfolio_listing.
    cbn [portfolios with_portfolios with_trades].
    rewrite Hrows, filter_app, Hold.
    + unfold listed. simpl. rewrite !andb_false_r. reflexivity.
    + intros x Hx. apply andb_true_iff in Hx. now apply Nat.eqb_eq.
Qed.

Lemma opposite_order_undoes_witness :
  let trade := mkTradeCreate "BTC/USD" "buy" "market" 0.2 None in
  let db1 := final (serve (create_order trade 7 1) sample_db) in
  let db2 := final (serve (create_order (opposite trade) 7 2) db1) in
  (exists r1 r2,
      rows_of db2 7 = [r1; r2] /\
      Portfolio.asset r1 = "BTC" /\ Portfolio.asset r2 = "USD" /\
      Portfolio.balance r1 = 0%float /\ Portfolio.balance r2 = 0%float) /\
  serve (get_portfolio 7) db2 = mkServed db2 [] (inr []).
Proof.
  apply (opposite_order_undoes sample_db
           (mkTradeCreate "BTC/USD" "buy" "market" 0.2 None) 7 1 2 btc_usd
           "BTC" "USD");
    try reflexivity; [now left | discriminate].
Defined.

(** From a balance other than zero the rounding of the two orders can leave
    a residue: 0.1 plus 0.2 minus 0.2 is 0.10000000000000003. *)
Lemma opposite_order_residue :
  let db := mkDatabase [] [] [Portfolio.mk 1 "BTC" 0.1 7] [btc_usd] in
  let trade := mkTradeCreate "BTC/USD" "buy" "market" 0.2 None in
  let db1 := final (serve (create_order trade 7 1) db) in
  let db2 := final (serve (create_order (opposite trade) 7 2) db1) in
  balance_of db2 7 "BTC" = 0.10000000000000003%float.
Proof. reflexivity. Qed.

(** ** Bots and their owners *)

Lemma first_index_none_iff {A : Type} (p : A -> bool) (l : list A) :
  first_index p l = None <-> find p l = None.
Proof.
  rewrite find_first_index. destruct (first_index p l) as [i |] eqn:E.
  - destruct (first_index_some _ _ _ E) as [x [Hx _]]. rewrite Hx.
    split; discriminate.
  - tauto.
Qed.

Lemma no_owned_bot (db : Database) (bot_id user : nat) :
  (forall b, In b (bots db) -> ~ (Bot.id b = bot_id /\ Bot.owner_id b = user)) ->
  find (owned_bot bot_id user) (bots db) = None.
Proof.
  intros H. destruct (find _ (bots db)) as [b |] eqn:E; [| reflexivity].
  apply find_some in E. destruct E as [Hin Hp].
  unfold owned_bot in Hp. apply andb_true_iff in Hp. rewrite !Nat.eqb_eq in Hp.
  now elim (H b Hin).
Qed.

Section Owners.

Variable json_loads : string -> Exn + json.

(** X7. Whoever owns no bot of the given id, because there is none or
    because it is another user's, gets 404 [Bot not found] from reading it,
    updating it, starting it, stopping it and reading its trades, and none of
    these changes anything or schedules work. *)
Theorem foreign_bot_untouched (db : Database) (bot_id current_user : nat)
  (bot_data : BotBase) (limit : nat) :
  (forall b, In b (bots db) ->
             ~ (Bot.id b = bot_id /\ Bot.owner_id b = current_user)) ->
  serve (get_bot bot_id current_user) db = mkServed db [] (inl not_found) /\
  serve (update_bot json_loads bot_id bot_data current_user) db
  = mkServed db [] (inl not_found) /\
  serve (start_bot bot_id current_user) db = mkServed db [] (inl not_found) /\
  serve (stop_bot bot_id current_user) db = mkServed db [] (inl not_found) /\
  serve (get_bot_trades bot_id limit current_user) db
  = mkServed db [] (inl not_found).
Proof.
  intros H. pose proof (no_owned_bot db bot_id current_user H) as Hfind.
  pose proof (proj2 (first_index_none_iff _ _) Hfind) as Href.
  unfold owned_bot in Hfind, Href.
  unfold serve, get_bot, update_bot, start_bot, stop_bot, get_bot_trades,
    bot_ref, bind, query. cbn.
  rewrite Hfind, Href. repeat split.
Qed.

End Owners.

Lemma foreign_bot_untouched_witness :
  serve (stop_bot 1 8) sample_bot_db = mkServed sample_bot_db [] (inl not_found) /\
  serve (get_bot_trades 1 10 8) sample_bot_db
  = mkServed sample_bot_db [] (inl not_found).
Proof.
  destruct (foreign_bot_untouched sample_loads sample_bot_db 1 8
              (mkBotBase "x" "y" "{}") 10) as (_ & _ & _ & Hstop & Htrades).
  - intros b [<- | []] [_ Hown]. discriminate Hown.
  - now split.
Defined.

Lemma update_at_twice {A : Type} (f g : A -> A) (i : nat) (l : list A) :
  update_at i f (update_at i g l) = update_at i (fun x => f (g x)) l.
Proof.
  revert i. induction l as [| y l IH]; intros [| i]; simpl; try reflexivity.
  now rewrite IH.
Qed.

Lemma bot_ref_status (p : Bot.t -> bool) (s : string) (i : nat) (d : Database) :
  (forall b, p (Bot.set_status s b) = p b) ->
  bot_ref p (with_bots (update_at i (Bot.set_status s)) d) = bot_ref p d.
Proof. intros Hp. unfold bot_ref. simpl. now apply first_index_update_at. Qed.

(** X8. Stopping an owned bot: when its status is stopped the answer is
    success=false and nothing changes; in any other status (running, error)
    the status of that one row becomes stopped, is committed, the answer is
    success=true, and a second stop then answers success=false and changes
    nothing. *)
Theorem stop_bot_once (db : Database) (bot_id current_user ref : nat) (b : Bot.t) :
  bot_ref (fun b => (Bot.id b =? bot_id) && (Bot.owner_id b =? current_user)) db
  = Some ref ->
  nth_error (bots db) ref = Some b ->
  let refused :=
    inr (mkBotActionResponse false "Bot is already stopped" "stopped") in
  let db' := with_bots (update_at ref (Bot.set_status "stopped")) db in
  (Bot.status b = "stopped" ->
   serve (stop_bot bot_id current_user) db = mkServed db [] refused) /\
  (Bot.status b <> "stopped" ->
   serve (stop_bot bot_id current_user) db
   = mkServed db' [db']
       (inr (mkBotActionResponse true "Bot stopped successfully" "stopped")) /\
   nth_error (bots db') ref = Some (Bot.set_status "stopped" b) /\
   (forall i, i <> ref -> nth_error (bots db') i = nth_error (bots db) i) /\
   serve (stop_bot bot_id current_user) db' = mkServed db' [] refused).
Proof.
  intros Href Hb refused db'.
  assert (Hstop : forall d r x,
    bot_ref (fun b => (Bot.id b =? bot_id) && (Bot.owner_id b =? current_user)) d
    = Some r ->
    nth_error (bots d) r = Some x ->
    serve (stop_bot bot_id current_user) d
    = if (Bot.status x =? "stopped")%string
      then mkServed d []
             (inr (mkBotActionResponse false "Bot is already stopped" (Bot.status x)))
      else mkServed (with_bots (update_at r (Bot.set_status "stopped")) d)
             [with_bots (update_at r (Bot.set_status "stopped")) d]
             (inr (mkBotActionResponse true "Bot stopped successfully" "stopped"))).
  { intros d r x Hr Hx. unfold serve, stop_bot, bot_at, bind, query. cbn.
    rewrite Hr. cbn. rewrite Hx. cbn.
    now destruct (Bot.status x =? "stopped")%string. }
  assert (Hb' : nth_error (bots db') ref = Some (Bot.set_status "stopped" b)).
  { subst db'. simpl. now rewrite nth_error_update_at, Nat.eqb_refl, Hb. }
  split.
  - intros Hs. rewrite (Hstop db ref b Href Hb), Hs. reflexivity.
  - intros Hs. split; [| split; [exact Hb' | split]].
    + rewrite (Hstop db ref b Href Hb).
      apply String.eqb_neq in Hs. now rewrite Hs.
    + intros i Hi. subst db'. simpl. rewrite nth_error_update_at.
      destruct (Nat.eqb_spec i ref); [contradiction | reflexivity].
    + rewrite (Hstop db' ref (Bot.set_status "stopped" b)); [reflexivity | | exact Hb'].
      subst db'. rewrite bot_ref_status; [exact Href | reflexivity].
Qed.

Lemma stop_bot_once_witness :
  let running := with_bots (update_at 0 (Bot.set_status "running")) sample_bot_db in
  let db' := with_bots (update_at 0 (Bot.set_status "stopped")) running in
  serve (stop_bot 1 7) running
  = mkServed db' [db']
      (inr (mkBotActionResponse true "Bot stopped successfully" "stopped")) /\
  serve (stop_bot 1 7) db'
  = mkServed db' []
      (inr (mkBotActionResponse false "Bot is already stopped" "stopped")).
Proof.
  destruct (stop_bot_once
              (with_bots (update_at 0 (Bot.set_status "running")) sample_bot_db)
              1 7 0 (Bot.set_status "running" sample_bot) eq_refl eq_refl)
    as [_ H].
  destruct H as (H1 & _ & _ & H2); [discriminate | now split].
Defined.

(** ** The unit of work and the requests around it *)

Lemma bind_query {A B : Type} (q : Database -> A) (k : A -> Handler B)
  (s : Session) :
  bind (query q) k s = k (q (pending s)) s.
Proof. reflexivity. Qed.

Lemma bind_commit {B : Type} (k : unit -> Handler B) (s : Session) :
  inactive s = false ->
  bind commit k s
  = k tt (mkSession (pending s) (pending s) (commits s ++ [pending s]) false).
Proof. intros H. unfold bind, commit. now rewrite H. Qed.

Lemma first_index_and {A : Type} (p q : A -> bool) (l : list A) (i : nat) (x : A) :
  first_index p l = Some i -> nth_error l i = Some x -> q x = true ->
  first_index (fun y => p y && q y) l = Some i.
Proof.
  revert i. induction l as [| y l IH]; intros i; simpl; [discriminate |].
  destruct (p y) eqn:Ep; simpl.
  - intros [= <-]. simpl. intros [= ->] Hq. now rewrite Hq.
  - destruct (first_index p l) as [j |] eqn:Ej; simpl; [| discriminate].
    intros [= <-]. simpl. intros Hx Hq. now rewrite (IH j eq_refl Hx Hq).
Qed.

Lemma start_bot_run (db : Database) (bot_id current_user ref : nat) (b : Bot.t) :
  bot_ref (fun b => (Bot.id b =? bot_id) && (Bot.owner_id b =? current_user)) db
  = Some ref ->
  nth_error (bots db) ref = Some b ->
  serve (start_bot bot_id current_user) db
  = mkServed db []
      (inr (if (Bot.status b =? "running")%string
            then (mkBotActionResponse false "Bot is already running" (Bot.status b),
                  [])
            else (mkBotActionResponse true "Bot started successfully" "starting",
                  [RunBotTask bot_id]))).
Proof.
  intros Href Hb. unfold serve, start_bot, bot_at, bind, query. cbn.
  rewrite Href. cbn. rewrite Hb. cbn.
  now destruct (Bot.status b =? "running")%string.
Qed.

Lemma stop_bot_run (d : Database) (bot_id current_user r : nat) (x : Bot.t) :
  bot_ref (fun b => (Bot.id b =? bot_id) && (Bot.owner_id b =? current_user)) d
  = Some r ->
  nth_error (bots d) r = Some x ->
  serve (stop_bot bot_id current_user) d
  = if (Bot.status x =? "stopped")%string
    then mkServed d []
           (inr (mkBotActionResponse false "Bot is already stopped" (Bot.status x)))
    else mkServed (with_bots (update_at r (Bot.set_status "stopped")) d)
           [with_bots (update_at r (Bot.set_status "stopped")) d]
           (inr (mkBotActionResponse true "Bot stopped successfully" "stopped")).
Proof.
  intros Hr Hx. unfold serve, stop_bot, bot_at, bind, query. cbn.
  rewrite Hr. cbn. rewrite Hx. cbn.
  now destruct (Bot.status x =? "stopped")%string.
Qed.

Section Task.

Variable json_loads : string -> Exn + json.
Variable float_of_string : string -> option float.
Variable bind_text : json -> Exn + string.

Local Abbreviation run_bot_task' := (run_bot_task json_loads float_of_string bind_text).
Local Abbreviation step' := (step json_loads float_of_string bind_text).
Local Abbreviation run' := (run json_loads float_of_string bind_text).

(** Once the unit of work has found its bot, the bot ends running or in
    error. *)
Lemma run_bot_task_bots (d : Database) (bot_id now ref : nat) :
  bot_ref (fun b => Bot.id b =? bot_id) d = Some ref ->
  let fin := final (serve (run_bot_task' bot_id now) d) in
  bots fin = update_at ref (Bot.set_status "running") (bots d) \/
  bots fin = update_at ref (Bot.set_status "error") (bots d).
Proof.
  intros Href fin. subst fin. unfold serve, run_bot_task.
  rewrite bind_query. cbn [pending]. rewrite Href.
  rewrite bind_mutate. cbn [stored pending commits inactive].
  rewrite bind_commit by reflexivity. cbn [stored pending commits app].
  set (running := with_bots (update_at ref (Bot.set_status "running")) d).
  match goal with
  | |- context [try_except ?m ?h] =>
      assert (Hbody : keeps same_bots m);
        [repeat keeps_step | set (body := m) in * ]
  end.
  unfold try_except.
  specialize (Hbody running (mkSession running running [running] false)).
  destruct (body (mkSession running running [running] false))
    as [[st pe co ia] [e | []]].
  - destruct Hbody as (Hst & Hpe & _); [repeat split; repeat constructor |].
    simpl in Hst, Hpe. unfold same_bots in Hst, Hpe.
    rewrite bind_mutate. cbn [stored pending commits inactive].
    unfold commit. cbn [inactive]. destruct ia; cbn.
    + left. exact Hst.
    + right. rewrite Hpe. subst running. simpl.
      rewrite update_at_twice. reflexivity.
  - left. cbn.
    destruct Hbody as (Hst & _ & _); [repeat split; repeat constructor |].
    exact Hst.
Qed.

End Task.

Section Races.

Variable json_loads : string -> Exn + json.
Variable float_of_string : string -> option float.
Variable bind_text : json -> Exn + string.

Local Abbreviation run_bot_task' := (run_bot_task json_loads float_of_string bind_text).
Local Abbreviation step' := (step json_loads float_of_string bind_text).
Local Abbreviation run' := (run json_loads float_of_string bind_text).

Lemma owned_ref (d : Database) (bot_id current_user ref : nat) (b : Bot.t) :
  bot_ref (fun b => Bot.id b =? bot_id) d = Some ref ->
  nth_error (bots d) ref = Some b ->
  Bot.owner_id b = current_user ->
  bot_ref (fun b => (Bot.id b =? bot_id) && (Bot.owner_id b =? current_user)) d
  = Some ref.
Proof.
  intros Href Hb Hown. unfold bot_ref in *.
  apply (first_index_and _ _ _ _ b Href Hb). now apply Nat.eqb_eq.
Qed.

Lemma step_start (w : World) (bot_id current_user ref : nat) (b : Bot.t) :
  bot_ref (fun b => (Bot.id b =? bot_id) && (Bot.owner_id b =? current_user))
          (database w) = Some ref ->
  nth_error (bots (database w)) ref = Some b ->
  Bot.status b <> "running" ->
  step' w (StartBot bot_id current_user)
  = (mkWorld (database w) (background w ++ [RunBotTask bot_id]), []).
Proof.
  intros Href Hb Hs. unfold step. rewrite (start_bot_run _ _ _ _ _ Href Hb).
  apply String.eqb_neq in Hs. rewrite Hs. reflexivity.
Qed.

(** X9. Stop does not reach a start that has not run yet.  For a stopped bot
    of the user: after a start, a stop answers success=false (the bot is
    still stopped) and changes nothing, and when the scheduled unit of work
    then runs, the bot ends running or in error, not stopped, with no work
    left scheduled. *)
Theorem stop_before_task_is_lost (w : World) (bot_id current_user ref now : nat)
  (b : Bot.t) :
  background w = [] ->
  bot_ref (fun b => Bot.id b =? bot_id) (database w) = Some ref ->
  nth_error (bots (database w)) ref = Some b ->
  Bot.owner_id b = current_user ->
  Bot.status b = "stopped" ->
  let w1 := fst (step' w (StartBot bot_id current_user)) in
  let w3 := fst (run' w [StartBot bot_id current_user;
                         StopBot bot_id current_user; Background 0 now]) in
  serve (stop_bot bot_id current_user) (database w1)
  = mkServed (database w) []
      (inr (mkBotActionResponse false "Bot is already stopped" "stopped")) /\
  background w3 = [] /\
  (bots (database w3)
   = update_at ref (Bot.set_status "running") (bots (database w)) \/
   bots (database w3)
   = update_at ref (Bot.set_status "error") (bots (database w))).
Proof.
  intros Hbg Href Hb Hown Hs w1 w3.
  pose proof (owned_ref _ _ _ _ _ Href Hb Hown) as Howned.
  assert (Hnr : Bot.status b <> "running") by (rewrite Hs; discriminate).
  pose proof (step_start w _ _ _ _ Howned Hb Hnr) as H1.
  pose proof (stop_bot_run _ _ _ _ _ Howned Hb) as H2.
  rewrite Hs in H2. simpl in H2.
  subst w1 w3. cbn [run]. rewrite H1. cbn [fst database].
  split; [exact H2 |].
  unfold step at 1. cbn [database background]. rewrite H2. cbn [final history].
  unfold step. cbn [database background]. rewrite Hbg. cbn [app nth_error remove_nth].
  cbn [fst snd background database]. split; [reflexivity |].
  rewrite H2. cbn [final]. now apply run_bot_task_bots.
Qed.

(** X10. Start has no guard against a start that has not run yet.  For a
    bot of the user that is not running, whose configuration gives text for
    symbol and side and a number for amount, on a symbol that names a
    market: two starts in a row are both accepted, and once the two scheduled
    units of work have run the bot has made two filled trades with
    different ids for its owner, no work is left scheduled, and the
    portfolio table is as before. *)
Theorem two_starts_two_trades (w : World) (bot_id current_user ref n1 n2 : nat)
  (b : Bot.t) (cfg v : json) (sym sd : string) (amt : float) (m : Market.t) :
  background w = [] ->
  bot_ref (fun b => Bot.id b =? bot_id) (database w) = Some ref ->
  nth_error (bots (database w)) ref = Some b ->
  Bot.owner_id b = current_user ->
  Bot.status b <> "running" ->
  json_loads (Bot.config b) = inr cfg ->
  config_get cfg "symbol" (JStr "BTC/USD") = inr (JStr sym) ->
  config_get cfg "side" (JStr "buy") = inr (JStr sd) ->
  config_get cfg "amount" (JFloat 0.01) = inr v ->
  py_float float_of_string v = inr amt ->
  market_by_symbol sym (database w) = Some m ->
  let w2 := fst (run' w [StartBot bot_id current_user;
                         StartBot bot_id current_user]) in
  let w4 := fst (run' w [StartBot bot_id current_user;
                         StartBot bot_id current_user;
                         Background 0 n1; Background 0 n2]) in
  w2 = mkWorld (database w) [RunBotTask bot_id; RunBotTask bot_id] /\
  background w4 = [] /\
  portfolios (database w4) = portfolios (database w) /\
  exists t1 t2,
    trades (database w4) = trades (database w) ++ [t1; t2] /\
    Trade.id t1 <> Trade.id t2 /\
    Forall (fun t => Trade.status t = "filled" /\
                     Trade.user_id t = current_user /\
                     Trade.bot_id t = Some (Bot.id b)) [t1; t2].
Proof.
  intros Hbg Href Hb Hown Hnr Hcfg Hsym Hsd Hv Hamt Hm w2 w4.
  pose proof (owned_ref _ _ _ _ _ Href Hb Hown) as Howned.
  destruct w as [d bg]. cbn [database background] in *. subst bg.
  pose proof (step_start (mkWorld d []) _ _ _ _ Howned Hb Hnr) as H1.
  pose proof (step_start (mkWorld d [RunBotTask bot_id]) _ _ _ _ Howned Hb Hnr)
    as H2.
  cbn [database background app] in H1, H2.
  pose proof (run_bot_task_trade json_loads float_of_string bind_text d bot_id n1
                ref b cfg v sym sd amt Href Hb Hcfg Hsym Hsd Hv Hamt) as T1.
  cbv zeta in T1. rewrite Hm in T1. destruct T1 as [T1 _].
  set (running := with_bots (update_at ref (Bot.set_status "running")) d) in *.
  set (t1 := bot_trade d b sym sd amt m n1) in *.
  set (d1 := with_trades (fun l => l ++ [t1]) running) in *.
  assert (Href1 : bot_ref (fun b => Bot.id b =? bot_id) d1 = Some ref).
  { subst d1 running. unfold bot_ref. simpl.
    now rewrite first_index_update_at. }
  assert (Hb1 : nth_error (bots d1) ref = Some (Bot.set_status "running" b)).
  { subst d1 running. simpl. now rewrite nth_error_update_at, Nat.eqb_refl, Hb. }
  pose proof (run_bot_task_trade json_loads float_of_string bind_text d1 bot_id n2
                ref _ cfg v sym sd amt Href1 Hb1 Hcfg Hsym Hsd Hv Hamt) as T2.
  cbv zeta in T2.
  assert (Hm1 : market_by_symbol sym d1 = Some m) by exact Hm.
  rewrite Hm1 in T2. destruct T2 as [T2 _].
  set (t2 := bot_trade d1 (Bot.set_status "running" b) sym sd amt m n2) in *.
  subst w2 w4. cbn [run]. rewrite H1. cbn [fst snd]. rewrite H2. cbn [fst snd app].
  split; [reflexivity |].
  unfold step. cbn [database background nth_error remove_nth fst snd].
  rewrite ?T1. cbn [final history fst snd database background].
  rewrite ?T2. cbn [final history fst snd database background].
  split; [reflexivity |]. split; [reflexivity |].
  exists t1, t2. split; [| split].
  - subst d1. simpl. now rewrite <- app_assoc.
  - assert (Hlt : Trade.id t1 < Trade.id t2); [| lia].
    subst t2 d1. simpl. apply next_id_above.
    rewrite map_app. apply in_or_app. right. now left.
  - repeat constructor; simpl; assumption.
Qed.

End Races.

Lemma stop_before_task_is_lost_witness :
  let w := mkWorld sample_bot_db [] in
  let w3 := fst (run sample_loads sample_float sample_bind w
                     [StartBot 1 7; StopBot 1 7; Background 0 3]) in
  background w3 = [] /\
  (bots (database w3) = [Bot.set_status "running" sample_bot] \/
   bots (database w3) = [Bot.set_status "error" sample_bot]).
Proof.
  exact (proj2 (stop_before_task_is_lost sample_loads sample_float sample_bind
                  (mkWorld sample_bot_db []) 1 7 0 3 sample_bot
                  eq_refl eq_refl eq_refl eq_refl eq_refl)).
Defined.

Lemma two_starts_two_trades_witness :
  let w := mkWorld sample_bot_db [] in
  let w4 := fst (run sample_loads sample_float sample_bind w
                     [StartBot 1 7; StartBot 1 7; Background 0 3; Background 0 4]) in
  background w4 = [] /\
  portfolios (database w4) = [] /\
  exists t1 t2,
    trades (database w4) = [t1; t2] /\ Trade.id t1 <> Trade.id t2.
Proof.
  destruct (two_starts_two_trades sample_loads sample_float sample_bind
              (mkWorld sample_bot_db []) 1 7 0 3 4 sample_bot (JObj [])
              (JFloat 0.01) "BTC/USD" "buy" 0.01%float btc_usd
              eq_refl eq_refl eq_refl eq_refl ltac:(discriminate) eq_refl eq_refl
              eq_refl eq_refl eq_refl eq_refl)
    as (_ & Hbg & Hp & t1 & t2 & Ht & Hne & _).
  split; [exact Hbg |]. split; [exact Hp |]. now exists t1, t2.
Defined.

(** ** Configurations *)

Lemma Forall_update_at {A : Type} (P : A -> Prop) (f : A -> A) (i : nat)
  (l : list A) :
  (forall x, P x -> P (f x)) -> Forall P l -> Forall P (update_at i f l).
Proof.
  intros Hf H. revert i. induction H as [| x l Hx Hl IH]; intros [| i]; simpl;
    constructor; auto.
Qed.

Section Configurations.

Variable json_loads : string -> Exn + json.
Variable float_of_string : string -> option float.
Variable bind_text : json -> Exn + string.

Local Abbreviation run_bot_task' := (run_bot_task json_loads float_of_string bind_text).
Local Abbreviation step' := (step json_loads float_of_string bind_text).
Local Abbreviation run' := (run json_loads float_of_string bind_text).

(** X11. A configuration that is not a JSON object breaks the unit of work:
    when [json.loads] raises on the text, whatever it raises, or the text
    parses to anything but an object (a list, a number, a string, null), the
    task commits status running, then status error, inserts no trade and
    raises nothing. *)
Theorem broken_config_sets_error (d : Database) (bot_id now ref : nat) (b : Bot.t) :
  bot_ref (fun b => Bot.id b =? bot_id) d = Some ref ->
  nth_error (bots d) ref = Some b ->
  ((exists e, json_loads (Bot.config b) = inl e) \/
   exists v, json_loads (Bot.config b) = inr v /\ forall fields, v <> JObj fields) ->
  let running := with_bots (update_at ref (Bot.set_status "running")) d in
  let failed := with_bots (update_at ref (Bot.set_status "error")) running in
  serve (run_bot_task' bot_id now) d = mkServed failed [running; failed] (inr tt) /\
  trades failed = trades d /\
  nth_error (bots failed) ref = Some (Bot.set_status "error" b).
Proof.
  intros Href Hb Hcfg running failed.
  split; [| split; [reflexivity |]].
  - unfold serve, run_bot_task, bot_at, try_except, bind, query. cbn.
    rewrite Href. cbn. rewrite nth_error_update_at, Nat.eqb_refl, Hb. cbn.
    destruct Hcfg as [(e & ->) | (v & -> & Hv)]; [reflexivity |].
    destruct v; try reflexivity. now elim (Hv fields).
  - subst failed running. simpl.
    now rewrite update_at_twice, nth_error_update_at, Nat.eqb_refl, Hb.
Qed.

(** X21. A side the driver cannot bind.  When the configuration parses to
    an object whose symbol names a market and whose side is a value the
    driver rejects where text is expected (a list, say), the commit of the
    new trade fails at its flush and leaves the session inactive; the
    handler of the task then sets status error and commits again, which
    raises: the task ends with [PendingRollbackError], the bot stays
    running, no trade is stored. *)
Theorem rejected_side_leaves_running (d : Database) (bot_id now ref : nat)
  (b : Bot.t) (cfg v sd : json) (sym : string) (amt : float) (m : Market.t)
  (e : Exn) :
  bot_ref (fun b => Bot.id b =? bot_id) d = Some ref ->
  nth_error (bots d) ref = Some b ->
  json_loads (Bot.config b) = inr cfg ->
  config_get cfg "symbol" (JStr "BTC/USD") = inr (JStr sym) ->
  config_get cfg "side" (JStr "buy") = inr sd ->
  config_get cfg "amount" (JFloat 0.01) = inr v ->
  py_float float_of_string v = inr amt ->
  market_by_symbol sym d = Some m ->
  as_text bind_text sd = inl e ->
  let running := with_bots (update_at ref (Bot.set_status "running")) d in
  serve (run_bot_task' bot_id now) d
  = mkServed running [running] (inl (PyError "PendingRollbackError")) /\
  trades running = trades d /\
  nth_error (bots running) ref = Some (Bot.set_status "running" b).
Proof.
  intros Href Hb Hcfg Hsym Hsd Hv Hamt Hm Hside running.
  split; [| split; [reflexivity |]].
  - unfold serve, run_bot_task, bot_at, try_except, bind, query. cbn.
    rewrite Href. cbn. rewrite nth_error_update_at, Nat.eqb_refl, Hb. cbn.
    rewrite Hcfg. cbn. rewrite Hsym. cbn. rewrite Hsd. cbn. rewrite Hv. cbn.
    rewrite Hamt. cbn.
    assert (Hm' : market_by_symbol sym running = Some m) by exact Hm.
    unfold running in Hm'. cbn in Hm'. rewrite Hm'. rewrite Hside. reflexivity.
  - subst running. simpl. now rewrite nth_error_update_at, Nat.eqb_refl, Hb.
Qed.

Local Abbreviation R := (configs_kept json_loads).

Lemma configs_status (i : nat) (s : string) :
  keeps R (mutate (with_bots (update_at i (Bot.set_status s)))).
Proof.
  apply keeps_mutate. intros d0 d H H0. specialize (H H0).
  unfold configs_parse in *. simpl. apply Forall_update_at; [| exact H].
  now intros x Hx.
Qed.

Lemma configs_trades (f : list Trade.t -> list Trade.t) :
  keeps R (mutate (with_trades f)).
Proof. apply keeps_mutate. intros d0 d H H0. exact (H H0). Qed.

Lemma configs_create (bot : BotBase) (current_user : nat) :
  keeps R (create_bot json_loads bot current_user).
Proof.
  unfold create_bot. destruct (json_loads (config bot)) as [e | v] eqn:E;
    [destruct (is_json_decode_error e); apply keeps_raise |].
  apply keeps_bind; [| intros ref; repeat keeps_step].
  unfold add_bot. apply keeps_bind; [apply keeps_query | intros ref].
  apply keeps_bind; [| intros; apply keeps_ret].
  apply keeps_mutate. intros d0 d H H0. specialize (H H0).
  unfold configs_parse in *. simpl. apply Forall_app. split; [exact H |].
  constructor; [| constructor]. simpl. now exists v.
Qed.

Lemma configs_update (bot_id : nat) (bot_data : BotBase) (current_user : nat) :
  keeps R (update_bot json_loads bot_id bot_data current_user).
Proof.
  unfold update_bot. apply keeps_bind; [apply keeps_query | intros [ref |]];
    [| apply keeps_raise].
  destruct (json_loads (config bot_data)) as [e | v] eqn:E;
    [destruct (is_json_decode_error e); apply keeps_raise |].
  apply keeps_bind; [| intros; repeat keeps_step].
  apply keeps_mutate. intros d0 d H H0. specialize (H H0).
  unfold configs_parse in *. simpl. apply Forall_update_at; [| exact H].
  intros x _. simpl. now exists v.
Qed.

Lemma configs_step (w : World) (r : Request) :
  R (database w) (database (fst (step' w r))) /\
  Forall (R (database w)) (snd (step' w r)).
Proof.
  assert (Hrefl : R (database w) (database w)) by (intros H; exact H).
  assert (Hsame : forall d0 d, same_bots d0 d -> R d0 d).
  { intros d0 d E H. unfold configs_parse, same_bots in *. now rewrite E. }
  assert (Hfrom : forall {A : Type} (h : Handler A),
    keeps same_bots h ->
    R (database w) (final (serve h (database w))) /\
    Forall (R (database w)) (history (serve h (database w)))).
  { intros A h Hh.
    destruct (serve_keeps same_bots h (database w) eq_refl Hh) as [H1 H2].
    split; [now apply Hsame |]. eapply Forall_impl; [| exact H2]. apply Hsame. }
  destruct r; unfold step; cbn [fst snd database].
  - apply Hfrom, create_order_keeps_bots.
  - apply Hfrom, get_portfolio_keeps.
  - apply serve_keeps; [exact Hrefl | apply configs_create].
  - apply serve_keeps; [exact Hrefl | apply configs_update].
  - apply serve_keeps; [exact Hrefl |]. unfold start_bot. repeat keeps_step.
  - apply serve_keeps; [exact Hrefl |]. unfold stop_bot.
    repeat first [apply configs_status | keeps_step].
  - destruct (nth_error (background w) n) as [[bot_id] |]; cbn [fst snd database].
    + apply serve_keeps; [exact Hrefl |]. unfold run_bot_task.
      repeat first [apply configs_status | apply configs_trades | keeps_step].
    + split; [exact Hrefl | constructor].
Qed.

(** X12. Creation and update check the configuration, and nothing else
    writes it: when every bot's configuration parses at the start, it does in
    every state of every run, so the unit of work never meets text that
    [json.loads] rejects. *)
Theorem configs_always_parse (w : World) (requests : list Request) :
  configs_parse json_loads (database w) ->
  Forall (configs_parse json_loads)
         (database (fst (run' w requests)) :: snd (run' w requests)).
Proof.
  intros H0.
  assert (H : Forall (R (database w))
                (database (fst (run' w requests)) :: snd (run' w requests))).
  { apply (run_keeps json_loads float_of_string bind_text R (fun _ => true)).
    - intros d H. exact H.
    - intros d1 d2 d3 H1 H2 H. exact (H2 (H1 H)).
    - intros w' r _. apply configs_step.
    - now induction requests. }
  eapply Forall_impl; [| exact H]. intros d Hd. exact (Hd H0).
Qed.

End Configurations.

Lemma broken_config_sets_error_witness :
  let d := mkDatabase [Bot.mk 1 "dca" "stopped" "simple" "[]" 7] [] [] [btc_usd] in
  let failed :=
    mkDatabase [Bot.mk 1 "dca" "error" "simple" "[]" 7] [] [] [btc_usd] in
  final (serve (run_bot_task sample_loads sample_float sample_bind 1 5) d) = failed.
Proof.
  destruct (broken_config_sets_error sample_loads sample_float sample_bind
              (mkDatabase [Bot.mk 1 "dca" "stopped" "simple" "[]" 7] [] [] [btc_usd])
              1 5 0 (Bot.mk 1 "dca" "stopped" "simple" "[]" 7)
              eq_refl eq_refl (or_introl (ex_intro _ _ eq_refl))) as [H _].
  cbv zeta. now rewrite H.
Defined.

Lemma rejected_side_leaves_running_witness :
  let loads (s : string) : Exn + json := inr (JObj [("side", JArr [])]) in
  let running := with_bots (update_at 0 (Bot.set_status "running")) sample_bot_db in
  serve (run_bot_task loads sample_float sample_bind 1 5) sample_bot_db
  = mkServed running [running] (inl (PyError "PendingRollbackError")).
Proof.
  exact (proj1 (rejected_side_leaves_running
                  (fun _ => inr (JObj [("side", JArr [])])) sample_float sample_bind
                  sample_bot_db 1 5 0 sample_bot (JObj [("side", JArr [])])
                  (JFloat 0.01) (JArr []) "BTC/USD" 0.01%float btc_usd
                  (PyError "InterfaceError")
                  eq_refl eq_refl eq_refl eq_refl eq_refl eq_refl eq_refl eq_refl
                  eq_refl)).
Defined.

Lemma configs_always_parse_witness :
  Forall (configs_parse sample_loads)
    (let r := run sample_loads sample_float sample_bind (mkWorld sample_bot_db [])
                  [CreateBot (mkBotBase "b" "s" "{}") 8;
                   UpdateBot 1 (mkBotBase "c" "s" "nonsense") 7;
                   StartBot 1 7; Background 0 3] in
     database (fst r) :: snd r).
Proof.
  apply (configs_always_parse sample_loads sample_float sample_bind
           (mkWorld sample_bot_db [])).
  repeat constructor. now exists (JObj []).
Defined.

(** ** Creating, updating and reading bots *)

Lemma not_decode_error (e : Exn) :
  e <> PyError "JSONDecodeError" -> is_json_decode_error e = false.
Proof.
  destruct e as [c d | name]; [reflexivity |]. simpl. intros H.
  apply String.eqb_neq. congruence.
Qed.

Lemma ids_below_next_bot (l : list Bot.t) (x : Bot.t) :
  In x l -> Bot.id x < next_id (map Bot.id l).
Proof. intros H. apply next_id_above, in_map, H. Qed.

Section Crud.

Variable json_loads : string -> Exn + json.

(** X13. Creating a bot.  Text on which [json.loads] raises
    [JSONDecodeError] is answered 400 and nothing is stored; when it raises
    anything else (a [RecursionError] on text nested too deep) that
    exception leaves the handler, a server error, and nothing is stored
    either.  Any text it accepts, object or not, is stored as a new last row
    with a fresh id, status stopped and the creator as owner, the other rows
    untouched, and the creator then reads that very bot back by its id and
    finds it last in the list of their bots. *)
Theorem created_bot_read_back (db : Database) (bot : BotBase) (current_user : nat) :
  (json_loads (config bot) = inl (PyError "JSONDecodeError") ->
   serve (create_bot json_loads bot current_user) db
   = mkServed db [] (inl (HTTPException 400 "Invalid JSON in config field"))) /\
  (forall e,
      json_loads (config bot) = inl e -> e <> PyError "JSONDecodeError" ->
      serve (create_bot json_loads bot current_user) db = mkServed db [] (inl e)) /\
  (forall v,
      json_loads (config bot) = inr v ->
      let new_bot :=
        Bot.mk (next_id (map Bot.id (bots db))) (name bot) "stopped" (strategy bot)
               (config bot) current_user in
      let db' := with_bots (fun l => l ++ [new_bot]) db in
      serve (create_bot json_loads bot current_user) db
      = mkServed db' [db'] (inr new_bot) /\
      (forall b, In b (bots db) -> Bot.id b <> Bot.id new_bot) /\
      serve (get_bot (Bot.id new_bot) current_user) db'
      = mkServed db' [] (inr new_bot) /\
      response (serve (get_bots current_user) db')
      = match response (serve (get_bots current_user) db) with
        | inr mine => inr (mine ++ [new_bot])
        | inl e => inl e
        end).
Proof.
  split; [| split].
  - intros E. unfold serve, create_bot. now rewrite E.
  - intros e E Hne. unfold serve, create_bot. rewrite E.
    now rewrite (not_decode_error e Hne).
  - intros v E new_bot db'.
    assert (Hfresh : forall b, In b (bots db) -> Bot.id b <> Bot.id new_bot).
    { intros b Hb. apply ids_below_next_bot in Hb. subst new_bot. simpl. lia. }
    split; [| split; [exact Hfresh | split]].
    + unfold serve, create_bot, add_bot, bot_at, bind, query.
      rewrite E. cbn. rewrite nth_error_last. reflexivity.
    + unfold serve, get_bot, bind, query. cbn.
      rewrite find_app_none.
      * simpl. now rewrite !Nat.eqb_refl.
      * intros x Hx. apply Hfresh in Hx. simpl in Hx.
        destruct (Nat.eqb_spec (Bot.id x) (next_id (map Bot.id (bots db))));
          [contradiction | reflexivity].
    + unfold serve, get_bots, query. cbn. rewrite filter_app. simpl.
      now rewrite Nat.eqb_refl.
Qed.

(** X14. Updating an owned bot.  Text on which [json.loads] raises
    [JSONDecodeError] is answered 400 and nothing changes; when it raises
    anything else that exception leaves the handler and nothing changes
    either.  Otherwise name, strategy and configuration of that one row are
    replaced and committed, its id, status and owner stay, every other row
    stays, and the owner then reads the updated bot back. *)
Theorem updated_bot_read_back (db : Database) (bot_id current_user ref : nat)
  (b : Bot.t) (bot_data : BotBase) :
  bot_ref (fun b => (Bot.id b =? bot_id) && (Bot.owner_id b =? current_user)) db
  = Some ref ->
  nth_error (bots db) ref = Some b ->
  (json_loads (config bot_data) = inl (PyError "JSONDecodeError") ->
   serve (update_bot json_loads bot_id bot_data current_user) db
   = mkServed db [] (inl (HTTPException 400 "Invalid JSON in config field"))) /\
  (forall e,
      json_loads (config bot_data) = inl e -> e <> PyError "JSONDecodeError" ->
      serve (update_bot json_loads bot_id bot_data current_user) db
      = mkServed db [] (inl e)) /\
  (forall v,
      json_loads (config bot_data) = inr v ->
      let updated :=
        Bot.mk (Bot.id b) (name bot_data) (Bot.status b) (strategy bot_data)
               (config bot_data) (Bot.owner_id b) in
      let db' :=
        with_bots (update_at ref (Bot.set_fields (name bot_data) (strategy bot_data)
                                    (config bot_data))) db in
      serve (update_bot json_loads bot_id bot_data current_user) db
      = mkServed db' [db'] (inr updated) /\
      nth_error (bots db') ref = Some updated /\
      (forall i, i <> ref -> nth_error (bots db') i = nth_error (bots db) i) /\
      serve (get_bot bot_id current_user) db' = mkServed db' [] (inr updated)).
Proof.
  intros Href Hb. split; [| split].
  - intros E. unfold serve, update_bot, bind, query. cbn.
    rewrite Href. now rewrite E.
  - intros e E Hne. unfold serve, update_bot, bind, query. cbn.
    rewrite Href, E. now rewrite (not_decode_error e Hne).
  - intros v E updated db'.
    assert (Hb' : nth_error (bots db') ref = Some updated).
    { subst db' updated. simpl.
      now rewrite nth_error_update_at, Nat.eqb_refl, Hb. }
    split; [| split; [exact Hb' | split]].
    + unfold serve, update_bot, bot_at, bind, query. cbn. rewrite Href, E. cbn.
      rewrite nth_error_update_at, Nat.eqb_refl, Hb. reflexivity.
    + intros i Hi. subst db'. simpl. rewrite nth_error_update_at.
      destruct (Nat.eqb_spec i ref); [contradiction | reflexivity].
    + unfold serve, get_bot, bind, query. cbn [pending].
      rewrite find_first_index.
      assert (Href' : first_index
                (fun b0 => (Bot.id b0 =? bot_id) && (Bot.owner_id b0 =? current_user))
                (bots db') = Some ref).
      { subst db'. simpl. rewrite first_index_update_at; [exact Href | reflexivity]. }
      rewrite Href', Hb'. reflexivity.
Qed.

End Crud.

Lemma created_bot_read_back_witness :
  let new_bot := Bot.mk 2 "grid" "stopped" "simple" "{}" 8 in
  let db' := with_bots (fun l => l ++ [new_bot]) sample_bot_db in
  serve (create_bot sample_loads (mkBotBase "grid" "simple" "{}") 8) sample_bot_db
  = mkServed db' [db'] (inr new_bot) /\
  serve (get_bot 2 8) db' = mkServed db' [] (inr new_bot) /\
  serve (create_bot sample_loads (mkBotBase "grid" "simple" "{") 8) sample_bot_db
  = mkServed sample_bot_db []
      (inl (HTTPException 400 "Invalid JSON in config field")) /\
  serve (create_bot sample_loads (mkBotBase "grid" "simple" "[[[[[") 8)
        sample_bot_db
  = mkServed sample_bot_db [] (inl (PyError "RecursionError")).
Proof.
  destruct (created_bot_read_back sample_loads sample_bot_db
              (mkBotBase "grid" "simple" "{}") 8) as (_ & _ & Hok).
  destruct (Hok (JObj []) eq_refl) as (Hc & _ & Hg & _).
  destruct (created_bot_read_back sample_loads sample_bot_db
              (mkBotBase "grid" "simple" "{") 8) as (Hbad & _ & _).
  destruct (created_bot_read_back sample_loads sample_bot_db
              (mkBotBase "grid" "simple" "[[[[[") 8) as (_ & Hdeep & _).
  split; [exact Hc |]. split; [exact Hg |]. split; [now apply Hbad |].
  apply Hdeep; [reflexivity | discriminate].
Defined.

Lemma updated_bot_read_back_witness :
  let updated := Bot.mk 1 "grid" "stopped" "fast" "{}" 7 in
  response (serve (update_bot sample_loads 1 (mkBotBase "grid" "fast" "{}") 7)
                  sample_bot_db) = inr updated /\
  response (serve (update_bot sample_loads 1 (mkBotBase "grid" "fast" "no") 7)
                  sample_bot_db)
  = inl (HTTPException 400 "Invalid JSON in config field") /\
  response (serve (update_bot sample_loads 1 (mkBotBase "grid" "fast" "[[[[[") 7)
                  sample_bot_db)
  = inl (PyError "RecursionError").
Proof.
  destruct (updated_bot_read_back sample_loads sample_bot_db 1 7 0 sample_bot
              (mkBotBase "grid" "fast" "{}") eq_refl eq_refl) as (_ & _ & Hok).
  destruct (updated_bot_read_back sample_loads sample_bot_db 1 7 0 sample_bot
              (mkBotBase "grid" "fast" "no") eq_refl eq_refl) as (Hbad & _ & _).
  destruct (updated_bot_read_back sample_loads sample_bot_db 1 7 0 sample_bot
              (mkBotBase "grid" "fast" "[[[[[") eq_refl eq_refl)
    as (_ & Hdeep & _).
  destruct (Hok (JObj []) eq_refl) as (Hu & _).
  split; [now rewrite Hu |]. split; [now rewrite Hbad |].
  rewrite (Hdeep (PyError "RecursionError")); [reflexivity | reflexivity |].
  discriminate.
Defined.

(** ** A bot's trade history *)

Lemma made_by_open_trade (db : Database) (trade : TradeCreate) (p : option float)
  (user now bot_id : nat) :
  made_by bot_id (open_trade db trade p user now) = false /\
  made_by bot_id (Trade.fill now (open_trade db trade p user now)) = false.
Proof. now split. Qed.

(** X15. The trade history of an owned bot changes nothing and answers
    the entries of the bot's newest trades: take every stored trade made by
    that bot, order them newest first and answer the entries of the first
    [limit], or of all when there are fewer; every trade of the bot that is
    left out is at most as new as every trade shown.  An order submitted by
    hand, by anyone, is no bot's trade: the history answered after it is the
    one answered before. *)
Theorem bot_history_page (db : Database) (bot_id limit current_user : nat)
  (b : Bot.t) :
  find (owned_bot bot_id current_user) (bots db) = Some b ->
  (exists sorted,
      Permutation sorted (filter (made_by bot_id) (trades db)) /\
      (forall t, In t sorted <-> In t (trades db) /\ Trade.bot_id t = Some bot_id) /\
      newest_first Trade.created_at sorted /\
      serve (get_bot_trades bot_id limit current_user) db
      = mkServed db [] (inr (map trade_entry (firstn limit sorted))) /\
      (forall t t', In t (firstn limit sorted) -> In t' (skipn limit sorted) ->
                    Trade.created_at t' <= Trade.created_at t)) /\
  (forall trade user now,
      response (serve (get_bot_trades bot_id limit current_user)
                      (final (serve (create_order trade user now) db)))
      = response (serve (get_bot_trades bot_id limit current_user) db)).
Proof.
  intros Hfind. unfold owned_bot in Hfind.
  assert (Hmade : forall t, made_by bot_id t = true <-> Trade.bot_id t = Some bot_id).
  { intros t. unfold made_by. destruct (Trade.bot_id t) as [i |].
    - rewrite Nat.eqb_eq. split; [now intros -> | now intros [= ->]].
    - split; discriminate. }
  assert (Hrun : forall d,
    bots d = bots db ->
    serve (get_bot_trades bot_id limit current_user) d
    = mkServed d []
        (inr (map trade_entry
                (firstn limit (order_by_desc Trade.created_at
                                 (filter (made_by bot_id) (trades d))))))).
  { intros d Hd. unfold serve, get_bot_trades, bind, query. cbn.
    rewrite Hd, Hfind. reflexivity. }
  split.
  - set (q := filter (made_by bot_id) (trades db)).
    exists (order_by_desc Trade.created_at q).
    pose proof (order_by_desc_sorted Trade.created_at q) as Hsorted.
    split; [apply order_by_desc_perm |].
    split; [| split; [exact Hsorted | split; [now apply Hrun |]]].
    + intros t. rewrite <- Hmade, <- filter_In. fold q. split; intros Ht.
      * now apply (Permutation_in _ (order_by_desc_perm Trade.created_at q)).
      * now apply (Permutation_in _ (Permutation_sym (order_by_desc_perm _ q))).
    + intros t t'. now apply newest_first_split.
  - intros trade user now.
    assert (Hsame : bots (final (serve (create_order trade user now) db)) = bots db
                    /\ filter (made_by bot_id)
                         (trades (final (serve (create_order trade user now) db)))
                       = filter (made_by bot_id) (trades db)).
    { destruct (create_order_outcome db trade user now); simpl;
        (split; [reflexivity |]); try reflexivity;
        rewrite filter_app; simpl; now rewrite app_nil_r. }
    destruct Hsame as [Hb Hf].
    rewrite (Hrun _ Hb), (Hrun db eq_refl). simpl. now rewrite Hf.
Qed.

Lemma bot_history_page_witness :
  let w := fst (run sample_loads sample_float sample_bind (mkWorld sample_bot_db [])
                    [StartBot 1 7; Background 0 3; StartBot 1 7; StopBot 1 7;
                     StartBot 1 7; Background 0 4]) in
  List.length (trades (database w)) = 2 /\
  exists sorted,
    Permutation sorted (filter (made_by 1) (trades (database w))) /\
    newest_first Trade.created_at sorted /\
    response (serve (get_bot_trades 1 1 7) (database w))
    = inr (map trade_entry (firstn 1 sorted)) /\
    map e_executed_at (map trade_entry (firstn 1 sorted)) = [Some 4].
Proof.
  split; [reflexivity |].
  destruct (bot_history_page
              (database (fst (run sample_loads sample_float sample_bind
                                  (mkWorld sample_bot_db [])
                                  [StartBot 1 7; Background 0 3; StartBot 1 7;
                                   StopBot 1 7; StartBot 1 7; Background 0 4])))
              1 1 7 (Bot.set_status "running" sample_bot) eq_refl)
    as [(sorted & Hp & _ & Hn & Hs & _) _].
  pose proof (f_equal response Hs) as Hr. cbn [response] in Hr.
  exists sorted. cbv zeta. split; [exact Hp |]. split; [exact Hn |].
  split; [exact Hr |].
  match type of Hr with
  | ?served = _ => eassert (E : served = inr _) by (vm_compute; reflexivity)
  end.
  rewrite Hr in E. injection E as E. cbn [firstn] in E |- *. rewrite E.
  reflexivity.
Defined.

(** ** The API key middleware *)

(** X16. The middleware answers 401 [Invalid API key] exactly when the path
    is none of the documentation paths, the configured key is not the
    development key, and the request carries no key or an empty one that is
    not the configured key.  So a request that carries any non-empty key
    passes, whether or not it is the configured one. *)
Theorem api_key_gate (API_KEY path : string) (api_key : option string) :
  (verify_api_key API_KEY path api_key = Unauthorized "Invalid API key" <->
   startswith path ["/docs"; "/redoc"; "/openapi.json"] = false /\
   API_KEY <> "dev_api_key" /\
   (api_key = None \/ (api_key = Some "" /\ API_KEY <> ""))) /\
  (verify_api_key API_KEY path api_key <> Unauthorized "Invalid API key" ->
   verify_api_key API_KEY path api_key = CallNext) /\
  (forall k, k <> "" -> verify_api_key API_KEY path (Some k) = CallNext).
Proof.
  unfold verify_api_key.
  remember (startswith path ["/docs"; "/redoc"; "/openapi.json"]) as doc eqn:Edoc.
  clear Edoc.
  assert (Hkey : forall k, k <> "" ->
    (if doc then CallNext
     else if negb (truthy_str (Some k)) && negb (API_KEY =? "dev_api_key")%string
          then if differs (Some k) API_KEY then Unauthorized "Invalid API key"
               else CallNext
          else CallNext) = CallNext).
  { intros k Hk. simpl. apply String.eqb_neq in Hk. rewrite Hk. simpl.
    now destruct doc. }
  split; [| split; [| exact Hkey]].
  - destruct doc.
    { split; [discriminate | intros [H _]; discriminate]. }
    destruct (String.eqb_spec API_KEY "dev_api_key") as [Edev | Ndev].
    { rewrite andb_false_r. split; [discriminate | intros (_ & H & _); now elim H]. }
    rewrite andb_true_r.
    destruct api_key as [k |]; simpl.
    + destruct (String.eqb_spec k "") as [-> | Hk]; simpl.
      * destruct API_KEY as [| c rest]; simpl.
        -- split; [discriminate |].
           intros (_ & _ & [H | [_ H]]); [discriminate | now elim H].
        -- split; [| reflexivity]. intros _. repeat split; try assumption.
           right. split; [reflexivity | discriminate].
      * split; [discriminate |].
        intros (_ & _ & [H | [H _]]); [discriminate |].
        injection H as ->. now elim Hk.
    + split; [| reflexivity]. intros _. repeat split; try assumption. now left.
  - intros H. destruct doc; [reflexivity |].
    destruct (negb (truthy_str api_key) && negb (API_KEY =? "dev_api_key")%string);
      [| reflexivity].
    destruct (differs api_key API_KEY); [now elim H | reflexivity].
Qed.

(** ** Registration and login *)

Section Accounts.

Variable get_password_hash : string -> string -> string.
Variable verify_password : string -> string -> bool.
Variable jwt_encode : string -> nat -> string.
Variable jwt_decode : string -> option (option string).

Local Abbreviation create_user' := (create_user get_password_hash).
Local Abbreviation login' := (login_for_access_token verify_password jwt_encode).
Local Abbreviation current' := (get_current_user jwt_decode).

Lemma find_none_not_in {A : Type} (f : A -> string) (x : string) (l : list A) :
  find (fun u => (f u =? x)%string) l = None <-> ~ In x (map f l).
Proof.
  split.
  - intros H Hin. apply in_map_iff in Hin. destruct Hin as (u & <- & Hu).
    pose proof (find_none _ _ H u Hu) as E. simpl in E.
    now rewrite String.eqb_refl in E.
  - intros H. destruct (find _ l) as [u |] eqn:E; [| reflexivity].
    apply find_some in E. destruct E as [Hu E]. apply String.eqb_eq in E.
    elim H. rewrite <- E. now apply in_map.
Qed.

Lemma next_id_fresh (ids : list nat) : ~ In (next_id ids) ids.
Proof. intros H. apply next_id_above in H. lia. Qed.

Lemma NoDup_snoc {A : Type} (l : list A) (x : A) :
  NoDup l -> ~ In x l -> NoDup (l ++ [x]).
Proof.
  intros Hl Hx. apply NoDup_app; [exact Hl | repeat constructor; auto |].
  intros a Ha [<- | []]. now apply Hx.
Qed.

(** X17. Registration keeps user names, e-mail addresses and ids unique.
    It refuses with 400, leaving the table as it is, exactly when the name
    or the address is taken; otherwise it appends one active user with a
    fresh id, the given name and address and the hash of the password. *)
Theorem create_user_keeps_unique (user : UserCreate) (salt : string)
  (users : list User.t) :
  let users' := fst (create_user' user salt users) in
  (NoDup (map User.username users) -> NoDup (map User.username users')) /\
  (NoDup (map User.email users) -> NoDup (map User.email users')) /\
  (NoDup (map User.id users) -> NoDup (map User.id users')) /\
  match snd (create_user' user salt users) with
  | inr u =>
      users' = users ++ [u] /\
      ~ In (username user) (map User.username users) /\
      ~ In (email user) (map User.email users) /\
      u = User.mk (next_id (map User.id users)) (username user) (email user)
                  (get_password_hash salt (password user)) true
  | inl e =>
      users' = users /\
      (In (username user) (map User.username users) /\
       e = HTTPException 400 "Username already registered" \/
       In (email user) (map User.email users) /\
       e = HTTPException 400 "Email already registered")
  end.
Proof.
  unfold create_user.
  destruct (find (fun u => (User.username u =? username user)%string) users)
    as [u1 |] eqn:E1.
  { simpl. repeat split; try tauto. left. split; [| reflexivity].
    apply find_some in E1. destruct E1 as [Hin E]. apply String.eqb_eq in E.
    rewrite <- E. now apply in_map. }
  destruct (find (fun u => (User.email u =? email user)%string) users)
    as [u2 |] eqn:E2.
  { simpl. repeat split; try tauto. right. split; [| reflexivity].
    apply find_some in E2. destruct E2 as [Hin E]. apply String.eqb_eq in E.
    rewrite <- E. now apply in_map. }
  apply find_none_not_in in E1, E2. simpl.
  rewrite !map_app. simpl.
  repeat split; try assumption; intros H; apply NoDup_snoc; try assumption.
  apply next_id_fresh.
Qed.

Lemma create_user_shape (user : UserCreate) (salt : string) (users : list User.t)
  (u : User.t) :
  snd (create_user' user salt users) = inr u ->
  fst (create_user' user salt users) = users ++ [u] /\
  find (fun x => (User.username x =? username user)%string) users = None /\
  u = User.mk (next_id (map User.id users)) (username user) (email user)
              (get_password_hash salt (password user)) true.
Proof.
  unfold create_user.
  destruct (find (fun x => (User.username x =? username user)%string) users);
    [discriminate |].
  destruct (find (fun x => (User.email x =? email user)%string) users);
    [discriminate |].
  simpl. intros [= <-]. now repeat split.
Qed.

(** X18. Register, log in, authenticate.  With a password library that
    verifies its own hashes and a token library that decodes the tokens it
    encodes: a user whose registration was accepted logs in with the
    registered name and password and gets a token, that token authenticates
    as the registered user, and the user is read back by id.  Whatever the
    libraries do, a login that fails answers the same 401 for an unknown
    name and for a wrong password. *)
Theorem register_login_authenticate (user : UserCreate) (salt : string)
  (users : list User.t) (u : User.t) (expire : nat) :
  (forall s p, verify_password p (get_password_hash s p) = true) ->
  (forall n e, jwt_decode (jwt_encode n e) = Some (Some n)) ->
  snd (create_user' user salt users) = inr u ->
  let users' := fst (create_user' user salt users) in
  login' (username user) (password user) expire users'
  = inr (jwt_encode (username user) expire) /\
  current' (jwt_encode (username user) expire) users' = inr u /\
  read_user (User.id u) users' = inr u /\
  forall n p e, login' n p expire users' = inl e ->
                e = HTTPException 401 "Incorrect username or password".
Proof.
  intros Hhash Hjwt Hreg users'.
  pose proof (create_user_shape user salt users u Hreg) as (Hu' & Hname & Hu).
  fold users' in Hu'.
  assert (Hfind : find (fun x => (User.username x =? username user)%string) users'
                  = Some u).
  { rewrite Hu', find_app_none.
    - simpl. rewrite Hu. simpl. now rewrite String.eqb_refl.
    - intros x Hx. apply (find_none _ _ Hname x Hx). }
  split; [| split; [| split]].
  - unfold login_for_access_token. rewrite Hfind, Hu. simpl.
    now rewrite Hhash.
  - unfold get_current_user. now rewrite Hjwt, Hfind.
  - unfold read_user. rewrite Hu', find_app_none.
    + simpl. now rewrite Nat.eqb_refl.
    + intros x Hx. rewrite Hu. simpl.
      assert (Hlt : User.id x < next_id (map User.id users))
        by now apply next_id_above, in_map.
      destruct (Nat.eqb_spec (User.id x) (next_id (map User.id users)));
        [lia | reflexivity].
  - intros n p e. unfold login_for_access_token.
    destruct (find (fun u0 => (User.username u0 =? n)%string) users') as [x |];
      [| now intros [= <-]].
    destruct (verify_password p (User.hashed_password x)); simpl;
      [discriminate | now intros [= <-]].
Qed.

End Accounts.

Lemma register_login_authenticate_witness :
  let alice := mkUserCreate "alice" "alice@example.org" "secret" in
  let u := User.mk 1 "alice" "alice@example.org" "secret" true in
  login_for_access_token sample_verify sample_encode "alice" "secret" 30 [u]
  = inr "alice" /\
  get_current_user sample_decode "alice" [u] = inr u /\
  read_user 1 [u] = inr u.
Proof.
  destruct (register_login_authenticate sample_hash sample_verify sample_encode
              sample_decode (mkUserCreate "alice" "alice@example.org" "secret")
              "salt" [] (User.mk 1 "alice" "alice@example.org" "secret" true) 30)
    as (H1 & H2 & H3 & _).
  - intros s p. apply String.eqb_refl.
  - reflexivity.
  - reflexivity.
  - now repeat split.
Defined.

(** ** Quotes and fills *)

(** X19. A valid order is on a symbol the market endpoint finds, and a
    market order fills at the price that endpoint quotes: reading the market
    just before the submission answers a row with that symbol whose price is
    the price stored on the trade. *)
Theorem market_order_fills_at_quote (db : Database) (trade : TradeCreate)
  (current_user now : nat) :
  valid_order db trade = true ->
  exists m t,
    serve (get_market (symbol trade)) db = mkServed db [] (inr m) /\
    Market.symbol m = symbol trade /\
    In m (markets db) /\
    response (serve (create_order trade current_user now) db) = inr t /\
    (order_type trade = "market" -> Trade.price t = Some (Market.price m)).
Proof.
  intros Hvalid.
  destruct (valid_order_inv _ _ Hvalid) as (Hs & Ht & Hp & m & Hm & Hsp).
  assert (Hget : serve (get_market (symbol trade)) db = mkServed db [] (inr m)).
  { unfold serve, get_market, bind, query. cbn. now rewrite Hm. }
  pose proof Hm as Hfound. unfold market_by_symbol in Hfound.
  apply find_some in Hfound. destruct Hfound as [Hin Hsym].
  apply String.eqb_eq in Hsym.
  destruct Ht as [Ht | Ht].
  - destruct (Hsp Ht) as (b & q & E).
    pose proof (create_order_market db trade current_user now m b q Hs Ht Hm E)
      as Hrun.
    cbv zeta in Hrun. exists m. eexists. rewrite Hrun.
    split; [exact Hget |]. split; [exact Hsym |]. split; [exact Hin |].
    split; [reflexivity |]. intros _. reflexivity.
  - pose proof (create_order_limit db trade current_user now m Hs Ht (Hp Ht) Hm)
      as Hrun.
    cbv zeta in Hrun. exists m. eexists. rewrite Hrun.
    split; [exact Hget |]. split; [exact Hsym |]. split; [exact Hin |].
    split; [reflexivity |]. rewrite Ht. discriminate.
Qed.

Lemma market_order_fills_at_quote_witness :
  exists m t,
    response (serve (get_market "BTC/USD") sample_db) = inr m /\
    response (serve (create_order (mkTradeCreate "BTC/USD" "buy" "market" 2 None)
                                  7 1) sample_db) = inr t /\
    Trade.price t = Some (Market.price m).
Proof.
  destruct (market_order_fills_at_quote sample_db
              (mkTradeCreate "BTC/USD" "buy" "market" 2 None) 7 1 eq_refl)
    as (m & t & Hg & _ & _ & Hr & Hp).
  exists m, t. split; [exact (f_equal response Hg) |].
  split; [exact Hr | now apply Hp].
Defined.

(** X20. Balances move only when a market order is accepted: whatever is
    submitted, if the answer is an error or the order is not a market order,
    the portfolio table after the request is the one before, in every state
    committed on the way. *)
Theorem no_fill_no_balance_change (db : Database) (trade : TradeCreate)
  (current_user now : nat) :
  let served := serve (create_order trade current_user now) db in
  ((exists e, response served = inl e) \/ order_type trade <> "market") ->
  Forall (fun d => portfolios d = portfolios db) (final served :: history served).
Proof.
  intros served H. subst served.
  destruct (create_order_outcome db trade current_user now)
    as [detail | m Hs Hty Hp Hm | m Hty Hm Hsp | m b q Hs Hty Hm Hsp];
    cbn [final history response] in *.
  - repeat constructor.
  - repeat constructor.
  - repeat constructor.
  - destruct H as [[e He] | Hne]; [discriminate | now elim Hne].
Qed.

Lemma no_fill_no_balance_change_witness :
  let trade := mkTradeCreate "BTC/USD" "buy" "limit" 2 (Some 95%float) in
  Forall (fun d => portfolios d = portfolios sample_db)
         (final (serve (create_order trade 7 1) sample_db)
          :: history (serve (create_order trade 7 1) sample_db)).
Proof.
  intros trade. apply (no_fill_no_balance_change sample_db trade 7 1).
  right. discriminate.
Defined.
